(** * PageIndex API: the [POST /run] handler of [api.py]

    A shallow embedding of the request handler [run] of [src/api.py] and of
    the Python library functions it calls, with the properties of the
    handler stated over that embedding.

    Python values are modelled as the code has them:
    - a [str] is a sequence of Unicode code points ([pystr], a list of [N]);
    - [bytes] is a sequence of octets, also a list of [N];
    - the file system is a finite set of directories and a finite map from
      paths to file contents;
    - the handler is a computation in a state-and-exception monad whose
      state holds the file system, the log, the trace of I/O operations and
      the handler's two mutable locals [temp_dir] and [temp_path]. *)

From Stdlib Require Import NArith ZArith Lia List String Ascii Bool.
From Stdlib Require DecimalFacts DecimalPos DecimalZ.
From stdpp Require Import base gmap list.
Import ListNotations.

#[local] Set Warnings "-clear-no-such-hyp".
Local Open Scope N_scope.

(** ** Python strings *)

(** A Python [str]: its code points in order. *)
Definition pystr := list N.

(** A string literal of the source, as a Python [str]. *)
Definition str (s : string) : pystr :=
  map N_of_ascii (list_ascii_of_string s).

(** [s.endswith(suffix)]. *)
Definition endswith (s suffix : pystr) : bool :=
  bool_decide (drop (length s - length suffix) s = suffix).

(** [s.startswith(prefix)]. *)
Definition startswith (s prefix : pystr) : bool :=
  bool_decide (prefix `prefix_of` s).

(** [str.isalnum] and [str.lower] on the ASCII range, where both are fixed
    by the language: letters and digits are alphanumeric, and only [A-Z]
    change under [lower]. *)
Definition ascii_isalnum (c : N) : bool :=
  ((48 <=? c) && (c <=? 57)) || ((65 <=? c) && (c <=? 90))
  || ((97 <=? c) && (c <=? 122)).

Definition ascii_lower (c : N) : N :=
  if (65 <=? c) && (c <=? 90) then c + 32 else c.

(** "Ends in [.pdf] under case-insensitive comparison", said without
    [lower]: the last four characters are a dot, then [p], [d], [f] in
    either case.  This is the reading of the extension check that the
    handler's test [filename.lower().endswith(".pdf")] is compared with. *)
Definition ends_with_pdf_ci (s : pystr) : bool :=
  match rev s with
  | f :: d :: p :: dot :: _ =>
      (dot =? 46) && ((p =? 112) || (p =? 80)) && ((d =? 100) || (d =? 68))
      && ((f =? 102) || (f =? 70))
  | _ => false
  end.

(** ** POSIX paths *)

(** [os.path.join(a, b)] of [posixpath]: an absolute [b] replaces [a];
    otherwise a separator is put between them unless [a] is empty or
    already ends with one. *)
Definition os_path_join (a b : pystr) : pystr :=
  if startswith b [47] then b
  else if bool_decide (a = []) || endswith a [47] then a ++ b
  else a ++ 47 :: b.

(** ** JSON-shaped Python values and [json.dumps]

    What the extraction engine returns: [None], booleans, integers,
    strings, lists, and dictionaries with string keys in insertion order.
    Floating-point numbers are outside the model. *)
#[warnings="-register-all"]
Inductive pyval :=
| PyNone
| PyBool (b : bool)
| PyInt (z : Z)
| PyStr (s : pystr)
| PyList (l : list pyval)
| PyDict (d : list (pystr * pyval)).

Fixpoint uint_digits (d : Decimal.uint) : pystr :=
  match d with
  | Decimal.Nil => []
  | Decimal.D0 d => 48 :: uint_digits d
  | Decimal.D1 d => 49 :: uint_digits d
  | Decimal.D2 d => 50 :: uint_digits d
  | Decimal.D3 d => 51 :: uint_digits d
  | Decimal.D4 d => 52 :: uint_digits d
  | Decimal.D5 d => 53 :: uint_digits d
  | Decimal.D6 d => 54 :: uint_digits d
  | Decimal.D7 d => 55 :: uint_digits d
  | Decimal.D8 d => 56 :: uint_digits d
  | Decimal.D9 d => 57 :: uint_digits d
  end.

(** [int.__repr__]: decimal digits, a minus sign for a negative number. *)
Definition int_repr (z : Z) : pystr :=
  match Z.to_int z with
  | Decimal.Pos d => uint_digits d
  | Decimal.Neg d => 45 :: uint_digits d
  end.

Definition hex_digit (n : N) : N := if n <? 10 then 48 + n else 87 + n.

(** One character under [json.encoder.py_encode_basestring]: the quote,
    the backslash and the control characters are escaped, every other
    character, non-ASCII included, is written as it is. *)
Definition escape_char (c : N) : pystr :=
  if c =? 34 then [92; 34]
  else if c =? 92 then [92; 92]
  else if c =? 10 then [92; 110]
  else if c =? 13 then [92; 114]
  else if c =? 9 then [92; 116]
  else if c =? 8 then [92; 98]
  else if c =? 12 then [92; 102]
  else if c <? 32 then [92; 117; 48; 48; hex_digit (c / 16); hex_digit (c mod 16)]
  else [c].

Definition encode_basestring (s : pystr) : pystr :=
  34 :: flat_map escape_char s ++ [34].

(** A newline followed by [indent * level] spaces, with [indent=2]. *)
Definition newline_indent (level : nat) : pystr :=
  10 :: repeat 32 (2 * level).

(** [sep.join(chunks)]. *)
Fixpoint join (sep : pystr) (chunks : list pystr) : pystr :=
  match chunks with
  | [] => []
  | [x] => x
  | x :: r => x ++ sep ++ join sep r
  end.

(** [json.encoder._make_iterencode] with [indent=2], [ensure_ascii=False]
    and the separators [(",", ": ")] that an indent selects, at nesting
    level [level]. *)
Fixpoint iterencode (level : nat) (v : pyval) {struct v} : pystr :=
  match v with
  | PyNone => str "null"
  | PyBool true => str "true"
  | PyBool false => str "false"
  | PyInt z => int_repr z
  | PyStr s => encode_basestring s
  | PyList [] => str "[]"
  | PyList l =>
      91 :: newline_indent (S level)
      ++ join (44 :: newline_indent (S level)) (map (iterencode (S level)) l)
      ++ newline_indent level ++ [93]
  | PyDict [] => str "{}"
  | PyDict d =>
      123 :: newline_indent (S level)
      ++ join (44 :: newline_indent (S level))
           (map (fun kv => encode_basestring (fst kv) ++ [58; 32]
                           ++ iterencode (S level) (snd kv)) d)
      ++ newline_indent level ++ [125]
  end.

(** [json.dumps(v, ensure_ascii=False, indent=2)] (line 86). *)
Definition json_dumps (v : pyval) : pystr := iterencode 0 v.

(** ** The layout of the body, line by line

    What the specification asks of the body, said without the encoder:
    the value is written out one item to a line, every line behind two
    spaces for each level of nesting it lies at, and a string stands
    between quotes with its characters beyond ASCII as they are. *)

(** A line: its nesting depth and its text. *)
Definition line : Type := nat * pystr.

(** A string between quotes: a character beyond ASCII is written as it
    is, an ASCII character as JSON writes it. *)
Definition quoted (s : pystr) : pystr :=
  34 :: flat_map (fun c => if 128 <=? c then [c] else escape_char c) s ++ [34].

(** [suffix] after the text of the last line. *)
Fixpoint append_to_last (suffix : pystr) (ls : list line) : list line :=
  match ls with
  | [] => []
  | [l] => [(fst l, snd l ++ suffix)]
  | l :: r => l :: append_to_last suffix r
  end.

(** [prefix] before the text of the first line. *)
Definition prepend_to_first (prefix : pystr) (ls : list line) : list line :=
  match ls with
  | [] => []
  | l :: r => (fst l, prefix ++ snd l) :: r
  end.

(** The lines of the items of a list or a dictionary, one item after the
    other, a comma ending each but the last. *)
Fixpoint comma_separated (blocks : list (list line)) : list line :=
  match blocks with
  | [] => []
  | [b] => b
  | b :: r => append_to_last [44] b ++ comma_separated r
  end.

(** The lines of a value at nesting depth [depth]: a scalar and an empty
    list or dictionary take one line; the brackets of any other list or
    dictionary take a line each, at the depth of the value, and its items
    lie between them, one level deeper, a dictionary's behind their keys. *)
Fixpoint indented_lines (depth : nat) (v : pyval) {struct v} : list line :=
  match v with
  | PyNone => [(depth, str "null")]
  | PyBool true => [(depth, str "true")]
  | PyBool false => [(depth, str "false")]
  | PyInt z => [(depth, int_repr z)]
  | PyStr s => [(depth, quoted s)]
  | PyList [] => [(depth, str "[]")]
  | PyList l =>
      (depth, [91]) :: comma_separated (map (indented_lines (S depth)) l)
      ++ [(depth, [93])]
  | PyDict [] => [(depth, str "{}")]
  | PyDict d =>
      (depth, [123])
      :: comma_separated
           (map (fun kv => prepend_to_first (quoted (fst kv) ++ [58; 32])
                             (indented_lines (S depth) (snd kv))) d)
      ++ [(depth, [125])]
  end.

(** The text of the lines: each behind two spaces for every level of its
    depth, a line feed between one line and the next. *)
Fixpoint unlines (ls : list line) : pystr :=
  match ls with
  | [] => []
  | [l] => repeat 32 (2 * fst l) ++ snd l
  | l :: r => repeat 32 (2 * fst l) ++ snd l ++ 10 :: unlines r
  end.

(** ** [json.loads]

    A recursive-descent parser for the JSON grammar (RFC 8259) as
    [json.loads] reads it, for the values of [pyval]: a number with a
    fraction or an exponent, which would be a [float], is refused, and a
    [\u] escape is read as the code point it spells, a surrogate pair of
    them as the one code point it stands for.  An object becomes a
    dictionary the way [dict(pairs)] builds one: a repeated key keeps its
    first place and takes its last value. *)

(** JSON whitespace: space, tab, line feed, carriage return. *)
Definition is_ws (c : N) : bool :=
  (c =? 32) || (c =? 9) || (c =? 10) || (c =? 13).

Fixpoint skip_ws (s : pystr) : pystr :=
  match s with
  | c :: rest => if is_ws c then skip_ws rest else s
  | [] => []
  end.

(** The rest of [s] after the literal [lit], when [s] starts with it. *)
Definition expect (lit s : pystr) : option pystr :=
  if startswith s lit then Some (drop (length lit) s) else None.

Definition hex_val (c : N) : option N :=
  if (48 <=? c) && (c <=? 57) then Some (c - 48)
  else if (97 <=? c) && (c <=? 102) then Some (c - 87)
  else if (65 <=? c) && (c <=? 70) then Some (c - 55)
  else None.

(** The character a one-letter escape stands for. *)
Definition unescape (e : N) : option N :=
  if e =? 34 then Some 34
  else if e =? 92 then Some 92
  else if e =? 47 then Some 47
  else if e =? 98 then Some 8
  else if e =? 102 then Some 12
  else if e =? 110 then Some 10
  else if e =? 114 then Some 13
  else if e =? 116 then Some 9
  else None.

Definition prepend {A B} (x : A) (r : option (list A * B)) : option (list A * B) :=
  match r with
  | Some (l, rest) => Some (x :: l, rest)
  | None => None
  end.

(** The code point four hexadecimal digits spell. *)
Definition hex4 (h1 h2 h3 h4 : N) : option N :=
  match hex_val h1, hex_val h2, hex_val h3, hex_val h4 with
  | Some a, Some b, Some c, Some d => Some (((a * 16 + b) * 16 + c) * 16 + d)
  | _, _, _, _ => None
  end.

(** The two halves of a surrogate pair. *)
Definition is_high_surrogate (u : N) : bool := (55296 <=? u) && (u <=? 56319).
Definition is_low_surrogate (u : N) : bool := (56320 <=? u) && (u <=? 57343).

(** The characters of a string up to its closing quote, and what follows
    the quote.  A raw control character is refused.  A [\u] escape that
    spells a high surrogate and is followed by one that spells a low
    surrogate is read with it as the one code point the pair stands for. *)
Fixpoint parse_string (s : pystr) : option (pystr * pystr) :=
  match s with
  | [] => None
  | c :: rest =>
      if c =? 34 then Some ([], rest)
      else if c =? 92 then
        match rest with
        | [] => None
        | e :: rest1 =>
            if e =? 117 then
              match rest1 with
              | h1 :: h2 :: h3 :: h4 :: rest2 =>
                  match hex4 h1 h2 h3 h4 with
                  | Some uni =>
                      if is_high_surrogate uni then
                        match rest2 with
                        | b :: u :: g1 :: g2 :: g3 :: g4 :: rest3 =>
                            match (if (b =? 92) && (u =? 117)
                                   then hex4 g1 g2 g3 g4 else None) with
                            | Some uni2 =>
                                if is_low_surrogate uni2
                                then prepend
                                       (65536 + (uni - 55296) * 1024 + (uni2 - 56320))
                                       (parse_string rest3)
                                else prepend uni (parse_string rest2)
                            | None => prepend uni (parse_string rest2)
                            end
                        | _ => prepend uni (parse_string rest2)
                        end
                      else prepend uni (parse_string rest2)
                  | None => None
                  end
              | _ => None
              end
            else
              match unescape e with
              | Some x => prepend x (parse_string rest1)
              | None => None
              end
        end
      else if c <? 32 then None
      else prepend c (parse_string rest)
  end.

Definition digit_of (c : N) : option (Decimal.uint -> Decimal.uint) :=
  if c =? 48 then Some Decimal.D0
  else if c =? 49 then Some Decimal.D1
  else if c =? 50 then Some Decimal.D2
  else if c =? 51 then Some Decimal.D3
  else if c =? 52 then Some Decimal.D4
  else if c =? 53 then Some Decimal.D5
  else if c =? 54 then Some Decimal.D6
  else if c =? 55 then Some Decimal.D7
  else if c =? 56 then Some Decimal.D8
  else if c =? 57 then Some Decimal.D9
  else None.

(** The longest run of digits [s] starts with, and what follows it. *)
Fixpoint parse_digits (s : pystr) : Decimal.uint * pystr :=
  match s with
  | [] => (Decimal.Nil, [])
  | c :: rest =>
      match digit_of c with
      | Some digit => let (d, r) := parse_digits rest in (digit d, r)
      | None => (Decimal.Nil, s)
      end
  end.

(** An integer: an optional minus sign, then [0] or digits that do not
    start with [0]; a fraction or an exponent after them is refused. *)
Definition parse_int (s : pystr) : option (Z * pystr) :=
  let (negative, s1) :=
    match s with
    | c :: rest => if c =? 45 then (true, rest) else (false, s)
    | [] => (false, s)
    end in
  let (d, rest) := parse_digits s1 in
  let well_formed :=
    match d with
    | Decimal.Nil => false
    | Decimal.D0 Decimal.Nil => true
    | Decimal.D0 _ => false
    | _ => true
    end in
  let is_float :=
    match rest with
    | c :: _ => (c =? 46) || (c =? 101) || (c =? 69)
    | [] => false
    end in
  if well_formed && negb is_float
  then Some (Z.of_int (if negative then Decimal.Neg d else Decimal.Pos d), rest)
  else None.

(** [d[k] = v]: the value of a key that is there is replaced in place, a
    new key goes to the end. *)
Fixpoint dict_set (k : pystr) (v : pyval) (d : list (pystr * pyval))
  : list (pystr * pyval) :=
  match d with
  | [] => [(k, v)]
  | (k', v') :: r =>
      if bool_decide (k = k') then (k, v) :: r else (k', v') :: dict_set k v r
  end.

(** [dict(pairs)]. *)
Definition dict_of_pairs (pairs : list (pystr * pyval)) : list (pystr * pyval) :=
  fold_left (fun d kv => dict_set (fst kv) (snd kv) d) pairs [].

(** The parser proper.  [fuel] bounds the depth of the recursion; the
    length of the input is enough of it. *)
Fixpoint parse_value (fuel : nat) (s : pystr) : option (pyval * pystr) :=
  match fuel with
  | O => None
  | S fuel =>
      match skip_ws s with
      | [] => None
      | c :: rest =>
          if c =? 110 then
            match expect (str "ull") rest with
            | Some r => Some (PyNone, r)
            | None => None
            end
          else if c =? 116 then
            match expect (str "rue") rest with
            | Some r => Some (PyBool true, r)
            | None => None
            end
          else if c =? 102 then
            match expect (str "alse") rest with
            | Some r => Some (PyBool false, r)
            | None => None
            end
          else if c =? 34 then
            match parse_string rest with
            | Some (x, r) => Some (PyStr x, r)
            | None => None
            end
          else if c =? 91 then
            match expect [93] (skip_ws rest) with
            | Some r => Some (PyList [], r)
            | None =>
                match parse_elements fuel rest with
                | Some (l, r) => Some (PyList l, r)
                | None => None
                end
            end
          else if c =? 123 then
            match expect [125] (skip_ws rest) with
            | Some r => Some (PyDict [], r)
            | None =>
                match parse_members fuel rest with
                | Some (pairs, r) => Some (PyDict (dict_of_pairs pairs), r)
                | None => None
                end
            end
          else
            match parse_int (c :: rest) with
            | Some (z, r) => Some (PyInt z, r)
            | None => None
            end
      end
  end
with parse_elements (fuel : nat) (s : pystr) : option (list pyval * pystr) :=
  match fuel with
  | O => None
  | S fuel =>
      match parse_value fuel s with
      | None => None
      | Some (v, rest) =>
          match skip_ws rest with
          | [] => None
          | c :: rest1 =>
              if c =? 44 then prepend v (parse_elements fuel rest1)
              else if c =? 93 then Some ([v], rest1)
              else None
          end
      end
  end
with parse_members (fuel : nat) (s : pystr) : option (list (pystr * pyval) * pystr) :=
  match fuel with
  | O => None
  | S fuel =>
      match expect [34] (skip_ws s) with
      | None => None
      | Some s1 =>
          match parse_string s1 with
          | None => None
          | Some (k, s2) =>
              match expect [58] (skip_ws s2) with
              | None => None
              | Some s3 =>
                  match parse_value fuel s3 with
                  | None => None
                  | Some (v, rest) =>
                      match skip_ws rest with
                      | [] => None
                      | c :: rest1 =>
                          if c =? 44 then prepend (k, v) (parse_members fuel rest1)
                          else if c =? 125 then Some ([(k, v)], rest1)
                          else None
                      end
                  end
              end
          end
      end
  end.

(** [json.loads(s)]: one value, with nothing but whitespace after it. *)
Definition json_loads (s : pystr) : option pyval :=
  match parse_value (length s) s with
  | Some (v, rest) =>
      match skip_ws rest with
      | [] => Some v
      | _ :: _ => None
      end
  | None => None
  end.

(** The number of nodes of a value, a bound on the fuel parsing it takes. *)
Fixpoint pyval_size (v : pyval) : nat :=
  match v with
  | PyList l => S (list_sum (map (fun x => S (pyval_size x)) l))
  | PyDict d => S (list_sum (map (fun kv => S (pyval_size (snd kv))) d))
  | _ => 1
  end.

(** A value as Python can hold it: the keys of a dictionary are distinct. *)
Fixpoint pyval_wf (v : pyval) : bool :=
  match v with
  | PyList l => forallb pyval_wf l
  | PyDict d =>
      bool_decide (NoDup (map fst d)) && forallb (fun kv => pyval_wf (snd kv)) d
  | _ => true
  end.

(** Induction on values, with the hypothesis for the items of a list and
    of a dictionary. *)
Fixpoint pyval_nested_ind (P : pyval -> Prop)
    (HNone : P PyNone) (HBool : forall b, P (PyBool b))
    (HInt : forall z, P (PyInt z)) (HStr : forall s, P (PyStr s))
    (HList : forall l, Forall P l -> P (PyList l))
    (HDict : forall d, Forall (fun kv => P (snd kv)) d -> P (PyDict d))
    (v : pyval) {struct v} : P v :=
  let rec := pyval_nested_ind P HNone HBool HInt HStr HList HDict in
  match v with
  | PyNone => HNone
  | PyBool b => HBool b
  | PyInt z => HInt z
  | PyStr s => HStr s
  | PyList l =>
      HList l ((fix items (l : list pyval) : Forall P l :=
                  match l with
                  | [] => @List.Forall_nil _ P
                  | x :: r => @List.Forall_cons _ P x r (rec x) (items r)
                  end) l)
  | PyDict d =>
      HDict d ((fix items (d : list (pystr * pyval))
                  : Forall (fun kv => P (snd kv)) d :=
                  match d with
                  | [] => @List.Forall_nil _ _
                  | kv :: r => @List.Forall_cons _ _ kv r (rec (snd kv)) (items r)
                  end) d)
  end.

(** What may follow a value in the output of [json.dumps]: nothing, a
    line feed or a comma. *)
Definition follows_value (rest : pystr) : Prop :=
  match rest with
  | [] => True
  | c :: _ => c = 10 \/ c = 44
  end.

(** A value that parses back from its encoding at every nesting level,
    with anything after it that may follow a value, given fuel for its
    nodes. *)
Definition roundtrips (v : pyval) : Prop :=
  forall lvl rest fuel,
    pyval_wf v = true -> (pyval_size v <= fuel)%nat -> follows_value rest ->
    parse_value fuel (iterencode lvl v ++ rest) = Some (v, rest).

(** ** Exceptions and responses *)

(** A raised Python exception, by the classes the handler tells apart:
    [HTTPException], [OSError], any other instance of [Exception] (with
    its [str(e)]), and the exceptions that derive from [BaseException]
    only ([KeyboardInterrupt], [SystemExit], [asyncio.CancelledError]). *)
Inductive exn :=
| HTTPException (status_code : Z) (detail : pystr)
| OSError (msg : pystr)
| Exception (msg : pystr)
| BaseException (msg : pystr).

Definition is_HTTPException (e : exn) : bool :=
  match e with HTTPException _ _ => true | _ => false end.

(** [isinstance(e, Exception)]. *)
Definition is_Exception (e : exn) : bool :=
  match e with BaseException _ => false | _ => true end.

(** [str(e)]. *)
Definition exn_str (e : exn) : pystr :=
  match e with
  | HTTPException status_code detail => int_repr status_code ++ [58; 32] ++ detail
  | OSError msg | Exception msg | BaseException msg => msg
  end.

Inductive result (A : Type) :=
| Ok (a : A)
| Raise (e : exn).
Arguments Ok {A} a.
Arguments Raise {A} e.

(** [starlette.responses.Response]; [status_code] defaults to 200. *)
Record Response := {
  content : pystr;
  media_type : pystr;
  status_code : Z
}.

Definition mkResponse (content media_type : pystr) : Response :=
  {| content := content; media_type := media_type; status_code := 200 |}.

(** ** The world the handler runs in *)

Record FS := {
  dirs : gset pystr;
  files : gmap pystr (list N)
}.

Inductive log_level := INFO | WARNING | ERROR.

Record log_record := {
  levelname : log_level;
  msg : string;
  args : list pystr
}.

(** The I/O operations a request performs, in order. *)
Inductive io_event :=
| EvRead
| EvMkdtemp
| EvOpen (path : pystr)
| EvWrite (path : pystr)
| EvPageIndex (path : pystr) (res : result pyval)
| EvUnlink (path : pystr)
| EvRmdir (path : pystr).

(** The state a request threads: the file system, the log, the trace of
    I/O operations, and the locals [temp_dir] and [temp_path] of [run],
    which the [finally] clause reads. *)
Record State := {
  fs : FS;
  log : list log_record;
  trace : list io_event;
  temp_dir : option pystr;
  temp_path : option pystr
}.

(** The upload: the claimed filename and the bytes behind it. *)
Record UploadFile := {
  filename : option pystr;
  body : list N
}.

(** What is outside the handler: the extraction engine (with the
    configuration [_opt], loaded once at startup, folded into it), the
    directory and the random name [tempfile] picks, the clock, and the
    failures the operating system and the libraries may answer with.

    The engine is taken to read the file system and to leave it as it
    finds it: it answers with a result or an exception, and what an
    engine that writes to the disk would leave behind is outside the
    model.  [json.dumps] raises for a value it cannot write out (a
    [ValueError] for an integer beyond the interpreter's limit on digits,
    a [RecursionError] for a nesting too deep): for which values, and with
    which message, is the environment's [dumps_fault].  [encode_error] is
    the message of the [UnicodeEncodeError] for a body that UTF-8 cannot
    encode, and [elapsed_seconds] the time the engine took, as [%.2f]
    writes it. *)
Record Env := {
  read_fault : option exn;
  gettempdir : pystr;
  mkdtemp_random : pystr;
  mkdtemp_fault : option exn;
  open_fault : option exn;
  write_fault : option exn;
  page_index_main : pystr -> FS -> result pyval;
  elapsed_seconds : pystr;
  dumps_fault : pyval -> option pystr;
  encode_error : pystr -> pystr;
  unlink_fault : option pystr;
  rmdir_fault : option pystr
}.

(** ** The monad of handler computations *)

Definition M (A : Type) : Type := State -> result A * State.

Definition ret {A} (a : A) : M A := fun st => (Ok a, st).

Definition bind {A B} (m : M A) (k : A -> M B) : M B :=
  fun st =>
    match m st with
    | (Ok a, st1) => k a st1
    | (Raise e, st1) => (Raise e, st1)
    end.

Definition raise {A} (e : exn) : M A := fun st => (Raise e, st).

Notation "'let*' x ':=' m 'in' k" := (bind m (fun x => k))
  (at level 10, x name, m at level 100, k at level 200).
Notation "m >> k" := (bind m (fun _ => k))
  (at level 100, k at level 200, right associativity).

(** [try: body finally: fin]: [fin] runs on every exit of [body]; an
    exception of [fin] replaces the outcome of [body]. *)
Definition try_finally {A} (body : M A) (fin : M unit) : M A :=
  fun st =>
    match body st with
    | (r, st1) =>
        match fin st1 with
        | (Ok _, st2) => (r, st2)
        | (Raise e, st2) => (Raise e, st2)
        end
    end.

(** [try: body except ... as e: handler e]; a handler re-raises what its
    clauses do not match. *)
Definition try_except {A} (body : M A) (handler : exn -> M A) : M A :=
  fun st =>
    match body st with
    | (Ok a, st1) => (Ok a, st1)
    | (Raise e, st1) => handler e st1
    end.

Definition get : M State := fun st => (Ok st, st).

Definition set_fs (f : FS) : M unit :=
  fun st => (Ok tt, {| fs := f; log := log st; trace := trace st;
                       temp_dir := temp_dir st; temp_path := temp_path st |}).

Definition emit (ev : io_event) : M unit :=
  fun st => (Ok tt, {| fs := fs st; log := log st; trace := trace st ++ [ev];
                       temp_dir := temp_dir st; temp_path := temp_path st |}).

Definition set_temp_dir (d : option pystr) : M unit :=
  fun st => (Ok tt, {| fs := fs st; log := log st; trace := trace st;
                       temp_dir := d; temp_path := temp_path st |}).

Definition set_temp_path (p : option pystr) : M unit :=
  fun st => (Ok tt, {| fs := fs st; log := log st; trace := trace st;
                       temp_dir := temp_dir st; temp_path := p |}).

(** [logger.<level>(msg, *args)]. *)
Definition logger (l : log_level) (m : string) (a : list pystr) : M unit :=
  fun st => (Ok tt, {| fs := fs st; log := log st ++ [{| levelname := l; msg := m; args := a |}];
                       trace := trace st; temp_dir := temp_dir st;
                       temp_path := temp_path st |}).

Definition raise_if {A} (fault : option exn) (k : M A) : M A :=
  match fault with
  | Some e => raise e
  | None => k
  end.

(** [await file.read()]. *)
Definition file_read (env : Env) (file : UploadFile) : M (list N) :=
  emit EvRead >> raise_if (read_fault env) (ret (body file)).

(** [path] lies under the directory [d]. *)
Definition is_under (d path : pystr) : Prop := (d ++ [47]) `prefix_of` path.

#[global] Instance is_under_dec d path : Decision (is_under d path) :=
  decide ((d ++ [47]) `prefix_of` path).

Definition dir_nonempty (f : FS) (d : pystr) : Prop :=
  set_Exists (is_under d) (dirs f ∪ dom (files f)).

#[global] Instance dir_nonempty_dec f d : Decision (dir_nonempty f d) :=
  decide (set_Exists (is_under d) (dirs f ∪ dom (files f))).

(** [path] names nothing yet: no directory, no file, nothing below it. *)
Definition unused (f : FS) (path : pystr) : bool :=
  negb (bool_decide (path ∈ dirs f)) && negb (bool_decide (is_Some (files f !! path)))
  && negb (bool_decide (dir_nonempty f path)).

(** [tempfile.mkdtemp(prefix=...)]: a new, empty directory with a random
    name under the temporary directory.  The library draws another name
    when the one it drew is in use, and gives up after many draws;
    [mkdtemp_random] stands for the name it settles on, and the model
    raises the library's error where that name is in use. *)
Definition tempfile_mkdtemp (env : Env) (prefix : pystr) : M pystr :=
  emit EvMkdtemp >>
  raise_if (mkdtemp_fault env)
    (let d := os_path_join (gettempdir env) (prefix ++ mkdtemp_random env) in
     let* st := get in
     if unused (fs st) d
     then set_fs {| dirs := {[d]} ∪ dirs (fs st); files := files (fs st) |} >> ret d
     else raise (OSError (str "File exists"))).

(** [with open(path, "wb") as f: f.write(content)]: opening creates or
    truncates the file, writing fills it. *)
Definition open_wb_write (env : Env) (path : pystr) (content : list N) : M unit :=
  emit (EvOpen path) >>
  raise_if (open_fault env)
    (let* st := get in
     set_fs {| dirs := dirs (fs st); files := <[path := []]> (files (fs st)) |} >>
     emit (EvWrite path) >>
     raise_if (write_fault env)
       (let* st := get in
        set_fs {| dirs := dirs (fs st); files := <[path := content]> (files (fs st)) |})).

(** [await loop.run_in_executor(None, lambda: page_index_main(temp_path, _opt))]:
    the engine runs to its end on a worker thread and the handler waits
    for it.  The engine reads the file system it is called in and, in
    this model, writes nothing to it. *)
Definition run_page_index_main (env : Env) (path : pystr) : M pyval :=
  let* st := get in
  let r := page_index_main env path (fs st) in
  emit (EvPageIndex path r) >>
  match r with
  | Ok v => ret v
  | Raise e => raise e
  end.

(** [json.dumps(v, ensure_ascii=False, indent=2)] as the call of line 86,
    which may raise. *)
Definition call_json_dumps (env : Env) (v : pyval) : M pystr :=
  match dumps_fault env v with
  | Some m => raise (Exception m)
  | None => ret (json_dumps v)
  end.

(** A surrogate code point (U+D800 to U+DFFF): UTF-8 has no encoding for
    it. *)
Definition is_surrogate (c : N) : bool := (55296 <=? c) && (c <=? 57343).

(** [Response(content=..., media_type=...)] (line 87): the constructor
    encodes the content as UTF-8, which raises [UnicodeEncodeError] when
    there is a surrogate in it. *)
Definition call_Response (env : Env) (content media_type : pystr) : M Response :=
  if existsb is_surrogate content
  then raise (Exception (encode_error env content))
  else ret (mkResponse content media_type).

Definition os_path_isdir (path : pystr) : M bool :=
  let* st := get in ret (bool_decide (path ∈ dirs (fs st))).

Definition os_path_isfile (path : pystr) : M bool :=
  let* st := get in ret (bool_decide (is_Some (files (fs st) !! path))).

(** [os.unlink(path)]. *)
Definition os_unlink (env : Env) (path : pystr) : M unit :=
  emit (EvUnlink path) >>
  match unlink_fault env with
  | Some m => raise (OSError m)
  | None =>
      let* st := get in
      if bool_decide (is_Some (files (fs st) !! path))
      then set_fs {| dirs := dirs (fs st); files := delete path (files (fs st)) |}
      else raise (OSError (str "No such file or directory"))
  end.

(** [os.rmdir(path)]: only an existing, empty directory is removed. *)
Definition os_rmdir (env : Env) (path : pystr) : M unit :=
  emit (EvRmdir path) >>
  match rmdir_fault env with
  | Some m => raise (OSError m)
  | None =>
      let* st := get in
      if negb (bool_decide (path ∈ dirs (fs st)))
      then raise (OSError (str "No such file or directory"))
      else if bool_decide (dir_nonempty (fs st) path)
      then raise (OSError (str "Directory not empty"))
      else set_fs {| dirs := dirs (fs st) ∖ {[path]}; files := files (fs st) |}
  end.

(** Truthiness of an optional string: [None] and [""] are falsy. *)
Definition truthy (s : option pystr) : bool :=
  match s with
  | Some (_ :: _) => true
  | _ => false
  end.

(** ** Tables and requests for the examples

    The character tables cut down to ASCII (no character beyond it is
    alphanumeric or changes under [lower]), an engine that answers once
    the staged file is there, and a file system with the temporary
    directory's parent in it. *)
Definition ascii_lower_piece (s : pystr) (i : nat) (c : N) : pystr :=
  [ascii_lower c].

Definition example_toc : pyval :=
  PyList
    [PyDict [(str "title", PyStr (str "Introduction")); (str "page", PyInt 1)];
     PyDict [(str "title", PyStr (str "Conclusion")); (str "page", PyInt 5)]].

Definition example_engine (answer : result pyval) (path : pystr) (f : FS)
  : result pyval :=
  match files f !! path with
  | Some _ => answer
  | None => Raise (OSError (str "No such file or directory"))
  end.

Definition example_env (answer : result pyval) : Env :=
  {| read_fault := None;
     gettempdir := str "/tmp";
     mkdtemp_random := str "k3x9_q2a";
     mkdtemp_fault := None;
     open_fault := None;
     write_fault := None;
     page_index_main := example_engine answer;
     elapsed_seconds := str "0.42";
     dumps_fault := fun _ => None;
     encode_error := fun _ => str "surrogates not allowed";
     unlink_fault := None;
     rmdir_fault := None |}.

Definition example_state : State :=
  {| fs := {| dirs := {[str "/tmp"]}; files := ∅ |};
     log := []; trace := []; temp_dir := None; temp_path := None |}.

Definition upload (name : string) : UploadFile :=
  {| filename := Some (str name); body := str "%PDF-1.4" |}.

Definition nameless_upload : UploadFile :=
  {| filename := None; body := str "%PDF-1.4" |}.

(** An environment for the examples with a fault at a chosen operation
    and a chosen random name for the directory. *)
Definition example_env_with (random : string)
    (read mkdtemp open write : option exn) (unlink rmdir : option pystr)
    (answer : result pyval) : Env :=
  {| read_fault := read;
     gettempdir := str "/tmp";
     mkdtemp_random := str random;
     mkdtemp_fault := mkdtemp;
     open_fault := open;
     write_fault := write;
     page_index_main := example_engine answer;
     elapsed_seconds := str "0.42";
     dumps_fault := fun _ => None;
     encode_error := fun _ => str "surrogates not allowed";
     unlink_fault := unlink;
     rmdir_fault := rmdir |}.

Unset Default Proof Using.

Section Handler.

(** The Unicode character database behind [str.isalnum] and [str.lower] is
    not part of the repository.  It is a parameter, pinned on the ASCII
    range.  [lower_piece s i c] is what [lower] writes for the character
    [c] standing at index [i] of [s] (one to three code points; the index
    and the string are there because a capital sigma is lowered by its
    context). *)
Variable isalnum : N -> bool.
Variable lower_piece : pystr -> nat -> N -> pystr.

Hypothesis isalnum_ascii : forall c, c < 128 -> isalnum c = ascii_isalnum c.
Hypothesis lower_ascii :
  forall s i c, c < 128 -> lower_piece s i c = [ascii_lower c].
(** Outside ASCII a character lowers to at least one code point, and the
    only ASCII code points that arise are [i] (from U+0130) and [k] (from
    the Kelvin sign U+212A). *)
Hypothesis lower_high :
  forall s i c, 128 <= c ->
    lower_piece s i c <> [] /\
    Forall (fun x => 128 <= x \/ x = 105 \/ x = 107) (lower_piece s i c).

Fixpoint lower_from (s : pystr) (i : nat) (rest : pystr) : pystr :=
  match rest with
  | [] => []
  | c :: r => lower_piece s i c ++ lower_from s (S i) r
  end.

(** [s.lower()]. *)
Definition lower (s : pystr) : pystr := lower_from s 0 s.

(** *** The handler's pure steps *)

(** [file.filename or "unknown"] (line 47): [None] and the empty string are
    both falsy. *)
Definition filename_or_unknown (fn : option pystr) : pystr :=
  match fn with
  | Some (c :: s) => c :: s
  | _ => str "unknown"
  end.

(** The test of line 53, [filename.lower().endswith(".pdf")]. *)
Definition has_pdf_extension (filename : pystr) : bool :=
  endswith (lower filename) (str ".pdf").

(** [c.isalnum() or c in "._- "] (line 65). *)
Definition allowed (c : N) : bool :=
  isalnum c || bool_decide (c ∈ str "._- ").

(** Line 65: the characters of the filename that are allowed, or
    ["upload.pdf"] when none is. *)
Definition sanitized (filename : pystr) : pystr :=
  match List.filter allowed filename with
  | [] => str "upload.pdf"
  | kept => kept
  end.

(** Lines 65-67: the name the upload is staged under. *)
Definition safe_name (filename : pystr) : pystr :=
  let safe_name := sanitized filename in
  if negb (endswith (lower safe_name) (str ".pdf"))
  then safe_name ++ str ".pdf"
  else safe_name.

(** *** The handler *)

(** The [finally] clause of [run] (lines 94-101). *)
Definition cleanup (env : Env) : M unit :=
  let* st := get in
  let* is_dir :=
    (if truthy (temp_dir st)
     then os_path_isdir (default [] (temp_dir st))
     else ret false) in
  if is_dir then
    try_except
      (let* st := get in
       let* is_file :=
         (if truthy (temp_path st)
          then os_path_isfile (default [] (temp_path st))
          else ret false) in
       (if is_file then os_unlink env (default [] (temp_path st)) else ret tt) >>
       os_rmdir env (default [] (temp_dir st)))
      (fun e =>
         match e with
         | OSError _ => logger WARNING "Cleanup temp dir failed: %s" [exn_str e]
         | _ => raise e
         end)
  else ret tt.

(** The body of the [try] statement of [run] (lines 52-87). *)
Definition run_body (env : Env) (file : UploadFile) : M Response :=
  let filename := filename_or_unknown (filename file) in
  (if negb (has_pdf_extension filename) then
     logger WARNING "Rejected non-PDF file: %s" [filename] >>
     raise (HTTPException 400 (str "File must have a .pdf extension"))
   else ret tt) >>
  let* content := file_read env file in
  let file_size := int_repr (Z.of_nat (length content)) in
  logger INFO "Request received: filename=%s, size_bytes=%s" [filename; file_size] >>
  let* d := tempfile_mkdtemp env (str "pageindex_") in
  set_temp_dir (Some d) >>
  let safe_name := safe_name filename in
  let p := os_path_join d safe_name in
  set_temp_path (Some p) >>
  open_wb_write env p content >>
  logger INFO "Processing started: %s" [filename] >>
  let* toc_with_page_number :=
    try_finally (run_page_index_main env p)
      (logger INFO "PageIndex finished: elapsed_seconds=%.2f" [elapsed_seconds env]) in
  logger INFO "Request finished: %s" [filename] >>
  let* body := call_json_dumps env toc_with_page_number in
  call_Response env body (str "application/json").

(** The [except] clauses of [run] (lines 89-93): an [HTTPException] is
    raised again, any other [Exception] becomes a 500, and what is no
    [Exception] matches neither clause. *)
Definition run_except (e : exn) : M Response :=
  if is_HTTPException e then raise e
  else if is_Exception e then
    logger ERROR "Request failed: %s" [exn_str e] >>
    raise (HTTPException 500 (exn_str e))
  else raise e.

(** Lines 48-49: the locals as the [try] statement finds them. *)
Definition enter (st : State) : State :=
  {| fs := fs st; log := log st; trace := trace st;
     temp_dir := None; temp_path := None |}.

(** [run] (lines 43-101). *)
Definition run (env : Env) (file : UploadFile) : M Response :=
  fun st =>
    try_finally (try_except (run_body env file) run_except) (cleanup env)
      (enter st).

(** The warning of line 101. *)
Definition cleanup_warning (m : pystr) : log_record :=
  {| levelname := WARNING; msg := "Cleanup temp dir failed: %s"; args := [m] |}.

(** The warning of line 54. *)
Definition rejected_warning (filename : pystr) : log_record :=
  {| levelname := WARNING; msg := "Rejected non-PDF file: %s"; args := [filename] |}.

(** The error of line 55. *)
Definition not_a_pdf : exn :=
  HTTPException 400 (str "File must have a .pdf extension").

(** The directory [tempfile.mkdtemp] makes for a request, the path the
    upload is staged at, and the file system the engine is called in. *)
Definition new_dir (env : Env) : pystr :=
  os_path_join (gettempdir env) (str "pageindex_" ++ mkdtemp_random env).

Definition staged_path (env : Env) (file : UploadFile) : pystr :=
  os_path_join (new_dir env) (safe_name (filename_or_unknown (filename file))).

Definition staged_fs (env : Env) (file : UploadFile) (f : FS) : FS :=
  {| dirs := {[new_dir env]} ∪ dirs f;
     files := <[staged_path env file := body file]> (files f) |}.

(** The I/O operations of a [try] statement that runs to its end. *)
Definition full_trace (env : Env) (file : UploadFile) (f : FS) : list io_event :=
  let p := staged_path env file in
  [EvRead; EvMkdtemp; EvOpen p; EvWrite p;
   EvPageIndex p (page_index_main env p (staged_fs env file f))].

(** [path] is an entry of the directory [d]: [d] followed by one separator
    (its own last character, or an added one) and a single name that is
    not empty, not [.] and not [..]. *)
Definition is_direct_child (d path : pystr) : Prop :=
  exists name, (47 ∉ name) /\ name <> [] /\ name <> [46] /\ name <> [46; 46] /\
    (path = d ++ 47 :: name \/ (endswith d [47] = true /\ path = d ++ name)).

(** *** The ways through the [try] statement *)

(** How far the body of the [try] statement gets: rejected by the check of
    line 53, stopped by an exception of one of its five operations or of
    the serialization of the engine's result, or through to the
    [return]. *)
Inductive outcome :=
| Rejected
| ReadFailed (e : exn)
| MkdtempFailed (e : exn)
| OpenFailed (e : exn)
| WriteFailed (e : exn)
| EngineRaised (e : exn)
| SerializationFailed (v : pyval) (e : exn)
| Returned (v : pyval).

(** What lines 86-87 raise for the engine's result [v], if anything:
    [json.dumps] first, then the encoding of the body. *)
Definition serialization_fault (env : Env) (v : pyval) : option exn :=
  match dumps_fault env v with
  | Some m => Some (Exception m)
  | None =>
      if existsb is_surrogate (json_dumps v)
      then Some (Exception (encode_error env (json_dumps v)))
      else None
  end.

Definition outcome_of (env : Env) (file : UploadFile) (f : FS) : outcome :=
  if negb (has_pdf_extension (filename_or_unknown (filename file))) then Rejected
  else match read_fault env with
  | Some e => ReadFailed e
  | None =>
  match mkdtemp_fault env with
  | Some e => MkdtempFailed e
  | None =>
  if negb (unused f (new_dir env)) then MkdtempFailed (OSError (str "File exists"))
  else match open_fault env with
  | Some e => OpenFailed e
  | None =>
  match write_fault env with
  | Some e => WriteFailed e
  | None =>
  match page_index_main env (staged_path env file) (staged_fs env file f) with
  | Ok v =>
      match serialization_fault env v with
      | Some e => SerializationFailed v e
      | None => Returned v
      end
  | Raise e => EngineRaised e
  end end end end end.

(** The records of lines 60, 72, 83, 85 and 92. *)
Definition received_info (file : UploadFile) : log_record :=
  {| levelname := INFO; msg := "Request received: filename=%s, size_bytes=%s";
     args := [filename_or_unknown (filename file);
              int_repr (Z.of_nat (length (body file)))] |}.

Definition started_info (file : UploadFile) : log_record :=
  {| levelname := INFO; msg := "Processing started: %s";
     args := [filename_or_unknown (filename file)] |}.

Definition elapsed_info (env : Env) : log_record :=
  {| levelname := INFO; msg := "PageIndex finished: elapsed_seconds=%.2f";
     args := [elapsed_seconds env] |}.

Definition finished_info (file : UploadFile) : log_record :=
  {| levelname := INFO; msg := "Request finished: %s";
     args := [filename_or_unknown (filename file)] |}.

Definition failed_error (e : exn) : log_record :=
  {| levelname := ERROR; msg := "Request failed: %s"; args := [exn_str e] |}.

(** What each way through the body has logged, done and left on the file
    system when it ends. *)
Definition body_log (env : Env) (file : UploadFile) (o : outcome)
  : list log_record :=
  match o with
  | Rejected => [rejected_warning (filename_or_unknown (filename file))]
  | ReadFailed _ => []
  | MkdtempFailed _ | OpenFailed _ | WriteFailed _ => [received_info file]
  | EngineRaised _ => [received_info file; started_info file; elapsed_info env]
  | SerializationFailed _ _ | Returned _ =>
      [received_info file; started_info file; elapsed_info env; finished_info file]
  end.

Definition body_trace (env : Env) (file : UploadFile) (f : FS) (o : outcome)
  : list io_event :=
  let p := staged_path env file in
  match o with
  | Rejected => []
  | ReadFailed _ => [EvRead]
  | MkdtempFailed _ => [EvRead; EvMkdtemp]
  | OpenFailed _ => [EvRead; EvMkdtemp; EvOpen p]
  | WriteFailed _ => [EvRead; EvMkdtemp; EvOpen p; EvWrite p]
  | EngineRaised _ | SerializationFailed _ _ | Returned _ => full_trace env file f
  end.

Definition body_fs (env : Env) (file : UploadFile) (f : FS) (o : outcome) : FS :=
  match o with
  | Rejected | ReadFailed _ | MkdtempFailed _ => f
  | OpenFailed _ => {| dirs := {[new_dir env]} ∪ dirs f; files := files f |}
  | WriteFailed _ =>
      {| dirs := {[new_dir env]} ∪ dirs f;
         files := <[staged_path env file := []]> (files f) |}
  | EngineRaised _ | SerializationFailed _ _ | Returned _ => staged_fs env file f
  end.

(** Whether [temp_dir] and [temp_path] have been assigned. *)
Definition has_staged (o : outcome) : bool :=
  match o with
  | Rejected | ReadFailed _ | MkdtempFailed _ => false
  | _ => true
  end.

Definition body_result (o : outcome) : result Response :=
  match o with
  | Rejected => Raise not_a_pdf
  | ReadFailed e | MkdtempFailed e | OpenFailed e | WriteFailed e
  | EngineRaised e | SerializationFailed _ e => Raise e
  | Returned v => Ok (mkResponse (json_dumps v) (str "application/json"))
  end.

Definition body_state (env : Env) (file : UploadFile) (st : State) (o : outcome)
  : State :=
  {| fs := body_fs env file (fs st) o;
     log := log st ++ body_log env file o;
     trace := trace st ++ body_trace env file (fs st) o;
     temp_dir := if has_staged o then Some (new_dir env) else None;
     temp_path := if has_staged o then Some (staged_path env file) else None |}.

(** The clause of line 91 catches what is an [Exception] and no
    [HTTPException]; [reraised e] is what leaves the [try] statement when
    its body raises [e]. *)
Definition is_caught (e : exn) : bool :=
  negb (is_HTTPException e) && is_Exception e.

Definition reraised (e : exn) : exn :=
  if is_caught e then HTTPException 500 (exn_str e) else e.

Definition raised (o : outcome) : option exn :=
  match body_result o with
  | Ok _ => None
  | Raise e => Some e
  end.

Definition except_log (o : outcome) : list log_record :=
  match raised o with
  | Some e => if is_caught e then [failed_error e] else []
  | None => []
  end.

Definition tried_result (o : outcome) : result Response :=
  match body_result o with
  | Ok resp => Ok resp
  | Raise e => Raise (reraised e)
  end.

Definition tried_state (env : Env) (file : UploadFile) (st : State) (o : outcome)
  : State :=
  {| fs := body_fs env file (fs st) o;
     log := log st ++ body_log env file o ++ except_log o;
     trace := trace st ++ body_trace env file (fs st) o;
     temp_dir := if has_staged o then Some (new_dir env) else None;
     temp_path := if has_staged o then Some (staged_path env file) else None |}.

(** The state the [finally] clause leaves when [temp_dir] names a
    directory that exists and holds nothing but the file at [temp_path],
    if that. *)
Definition after_cleanup (st : State) (f : FS) (warning : option pystr)
    (evs : list io_event) : State :=
  {| fs := f;
     log := log st ++ match warning with
                      | Some m => [cleanup_warning m]
                      | None => []
                      end;
     trace := trace st ++ evs;
     temp_dir := temp_dir st;
     temp_path := temp_path st |}.

Definition cleaned (env : Env) (d p : pystr) (st : State) : State :=
  let f := fs st in
  if bool_decide (is_Some (files f !! p)) then
    match unlink_fault env with
    | Some m => after_cleanup st f (Some m) [EvUnlink p]
    | None =>
        match rmdir_fault env with
        | Some m =>
            after_cleanup st {| dirs := dirs f; files := delete p (files f) |}
              (Some m) [EvUnlink p; EvRmdir d]
        | None =>
            after_cleanup st
              {| dirs := dirs f ∖ {[d]}; files := delete p (files f) |}
              None [EvUnlink p; EvRmdir d]
        end
    end
  else
    match rmdir_fault env with
    | Some m => after_cleanup st f (Some m) [EvRmdir d]
    | None =>
        after_cleanup st {| dirs := dirs f ∖ {[d]}; files := files f |}
          None [EvRmdir d]
    end.

(** *** Proof steps for handler computations *)

Ltac unfold_M :=
  unfold run, run_body, run_except, cleanup, try_finally, try_except, file_read,
    tempfile_mkdtemp, open_wb_write, run_page_index_main, call_json_dumps,
    call_Response, os_path_isdir,
    os_path_isfile, os_unlink, os_rmdir, raise_if, logger, emit, set_fs,
    set_temp_dir, set_temp_path, get, bind, ret, raise, enter in *.
Ltac msimpl :=
  cbn [fs log trace temp_dir temp_path dirs files fst snd is_HTTPException
       is_Exception negb default from_option id] in *.

(** ** Strings: the extension check *)

Lemma endswith_suffix (s t : pystr) : endswith s t = true <-> t `suffix_of` s.
Proof.
  unfold endswith. rewrite bool_decide_eq_true. split.
  - intros H. exists (take (length s - length t) s).
    rewrite <- (take_drop (length s - length t) s) at 1. by rewrite H.
  - intros [k ->]. rewrite length_app.
    replace (length k + length t - length t)%nat with (length k) by lia.
    apply drop_app_length.
Qed.

Lemma lower_from_snoc s i r c :
  lower_from s i (r ++ [c]) = lower_from s i r ++ lower_piece s (i + length r) c.
Proof.
  revert i. induction r as [|x r IH]; intros i; simpl.
  - rewrite Nat.add_0_r. apply app_nil_r.
  - rewrite IH, <- app_assoc. do 3 f_equal. lia.
Qed.

(** What [lower] writes for one character ends in a code point that is
    the character's ASCII lowering, or is none of [.], [p], [d], [f]. *)
Lemma lower_piece_last s i c :
  exists ys y, lower_piece s i c = ys ++ [y] /\
    ((c < 128 /\ ys = [] /\ y = ascii_lower c) \/
     (128 <= c /\ (128 <= y \/ y = 105 \/ y = 107))).
Proof.
  destruct (N.lt_ge_cases c 128) as [Hc|Hc].
  - exists [], (ascii_lower c). rewrite lower_ascii by done. auto.
  - destruct (lower_high s i c Hc) as [Hne Hall].
    destruct (lower_piece s i c) as [|z zs] using rev_ind; [done|].
    exists zs, z. split; [done|]. right. split; [done|].
    apply Forall_app in Hall as [_ Hz]. by inversion Hz.
Qed.

Lemma endswith_lower_snoc s i r c t x :
  x < 128 -> x <> 105 -> x <> 107 ->
  endswith (lower_from s i (r ++ [c])) (t ++ [x]) = true <->
  c < 128 /\ ascii_lower c = x /\ endswith (lower_from s i r) t = true.
Proof.
  intros Hx Hi Hk. rewrite lower_from_snoc, !endswith_suffix.
  destruct (lower_piece_last s (i + length r) c) as (ys & y & -> & Hy).
  rewrite app_assoc. split.
  - intros H. pose proof (suffix_snoc_inv_1 _ _ _ _ H) as <-.
    apply suffix_snoc_inv_2 in H.
    destruct Hy as [(Hc & -> & Hy)|(Hc & Hy)]; [|lia].
    rewrite app_nil_r in H. done.
  - intros (Hc & <- & H).
    destruct Hy as [(_ & -> & ->)|(Hc' & _)]; [|lia].
    rewrite app_nil_r. by apply suffix_snoc.
Qed.

Lemma endswith_nil_snoc (t : pystr) x : endswith [] (t ++ [x]) = false.
Proof.
  apply not_true_is_false. rewrite endswith_suffix. intros H.
  apply suffix_nil_inv in H. by destruct t.
Qed.

Lemma endswith_nil_r (s : pystr) : endswith s [] = true.
Proof. apply endswith_suffix, suffix_nil. Qed.

Lemma ascii_lower_eq c x :
  c < 128 -> x < 65 \/ 90 < x ->
  ascii_lower c = x <-> c = x \/ (97 <= x /\ x <= 122 /\ c + 32 = x).
Proof.
  unfold ascii_lower. intros Hc Hx.
  destruct (N.leb_spec 65 c), (N.leb_spec c 90); simpl; lia.
Qed.

(** The test of line 53 is the case-insensitive comparison of the last
    four characters with [.pdf]. *)
Lemma has_pdf_extension_ci s : has_pdf_extension s = ends_with_pdf_ci s.
Proof.
  unfold has_pdf_extension, ends_with_pdf_ci, lower.
  generalize 0%nat at 1. generalize s at 1. intros s0 i.
  rewrite <- (rev_involutive s) at 1.
  change (str ".pdf") with (((([] ++ [46]) ++ [112]) ++ [100]) ++ [102]).
  destruct (rev s) as [|f [|d [|p [|dot rest]]]];
    try (apply not_true_is_false; intros H).
  - by rewrite endswith_nil_snoc in H.
  - change (rev [f]) with ([] ++ [f]) in H.
    apply endswith_lower_snoc in H as (_ & _ & H); [|lia..].
    by rewrite endswith_nil_snoc in H.
  - change (rev [f; d]) with (([] ++ [d]) ++ [f]) in H.
    apply endswith_lower_snoc in H as (_ & _ & H); [|lia..].
    apply endswith_lower_snoc in H as (_ & _ & H); [|lia..].
    by rewrite endswith_nil_snoc in H.
  - change (rev [f; d; p]) with ((([] ++ [p]) ++ [d]) ++ [f]) in H.
    apply endswith_lower_snoc in H as (_ & _ & H); [|lia..].
    apply endswith_lower_snoc in H as (_ & _ & H); [|lia..].
    apply endswith_lower_snoc in H as (_ & _ & H); [|lia..].
    by rewrite endswith_nil_snoc in H.
  - apply eq_true_iff_eq. simpl rev.
    rewrite endswith_lower_snoc by lia.
    rewrite endswith_lower_snoc by lia.
    rewrite endswith_lower_snoc by lia.
    rewrite endswith_lower_snoc by lia.
    rewrite endswith_nil_r.
    rewrite !andb_true_iff, !orb_true_iff, !N.eqb_eq.
    split.
    + intros (Hf & Ef & Hd & Ed & Hp & Ep & Hdot & Edot & _).
      apply ascii_lower_eq in Ef, Ed, Ep, Edot; [|lia..]. lia.
    + intros (((Edot & Ep) & Ed) & Ef).
      assert (dot < 128 /\ p < 128 /\ d < 128 /\ f < 128) as (?&?&?&?) by lia.
      rewrite !ascii_lower_eq by lia. repeat split; (done || lia).
Qed.

(** ** Strings: the staged name *)

Lemma ends_with_pdf_ci_app (s : pystr) : ends_with_pdf_ci (s ++ str ".pdf") = true.
Proof. unfold ends_with_pdf_ci. by rewrite rev_app_distr. Qed.

Lemma ends_with_pdf_ci_length (s : pystr) :
  ends_with_pdf_ci s = true -> (4 <= length s)%nat.
Proof.
  unfold ends_with_pdf_ci. rewrite <- (length_rev s).
  destruct (rev s) as [|f [|d [|p [|dot rest]]]]; simpl; (done || lia).
Qed.

Lemma slash_not_allowed : allowed 47 = false.
Proof. unfold allowed. by rewrite isalnum_ascii. Qed.

Lemma filter_allowed_no_slash (s : pystr) : 47 ∉ List.filter allowed s.
Proof.
  rewrite list_elem_of_In, filter_In. intros [_ H].
  by rewrite slash_not_allowed in H.
Qed.

Lemma filter_allowed_id (s : pystr) :
  forallb allowed s = true -> List.filter allowed s = s.
Proof.
  induction s as [|c s IH]; simpl; [done|].
  rewrite andb_true_iff. intros [-> H]. by rewrite IH.
Qed.

Lemma sanitized_no_slash (s : pystr) : 47 ∉ sanitized s.
Proof.
  unfold sanitized. pose proof (filter_allowed_no_slash s) as H.
  destruct (List.filter allowed s); [|done].
  rewrite list_elem_of_In. vm_compute. intuition discriminate.
Qed.

Lemma safe_name_ci (s : pystr) : ends_with_pdf_ci (safe_name s) = true.
Proof.
  unfold safe_name. fold (has_pdf_extension (sanitized s)).
  destruct (has_pdf_extension (sanitized s)) eqn:E; simpl.
  - by rewrite <- has_pdf_extension_ci.
  - apply ends_with_pdf_ci_app.
Qed.

Lemma safe_name_no_slash (s : pystr) : 47 ∉ safe_name s.
Proof.
  unfold safe_name. pose proof (sanitized_no_slash s) as H.
  destruct (negb _); [|done].
  rewrite elem_of_app. intros [?|H']; [done|].
  revert H'. rewrite list_elem_of_In. vm_compute. intuition discriminate.
Qed.

(** ** JSON: parsing what [json.dumps] writes *)

Lemma skip_ws_newline_indent n s : skip_ws (newline_indent n ++ s) = skip_ws s.
Proof.
  unfold newline_indent. cbn [app skip_ws is_ws N.eqb orb Pos.eqb].
  induction (2 * n)%nat as [|k IH]; [done|]. exact IH.
Qed.

Lemma skip_ws_id c s : is_ws c = false -> skip_ws (c :: s) = c :: s.
Proof. intros H. simpl. by rewrite H. Qed.

Lemma expect_app lit rest : expect lit (lit ++ rest) = Some rest.
Proof.
  unfold expect, startswith. rewrite bool_decide_true by (by exists rest).
  by rewrite drop_app_length.
Qed.

Lemma expect_cons_ne c c' s : c <> c' -> expect [c] (c' :: s) = None.
Proof.
  intros H. unfold expect, startswith. rewrite bool_decide_false; [done|].
  intros [k [= -> _]]. done.
Qed.

Lemma hex_val_digit n : n < 16 -> hex_val (hex_digit n) = Some n.
Proof.
  intros H. unfold hex_val, hex_digit.
  destruct (N.ltb_spec n 10).
  - replace ((48 <=? 48 + n) && (48 + n <=? 57)) with true.
    + f_equal. lia.
    + symmetry. apply andb_true_iff. split; apply N.leb_le; lia.
  - replace ((48 <=? 87 + n) && (87 + n <=? 57)) with false.
    + replace ((97 <=? 87 + n) && (87 + n <=? 102)) with true.
      * f_equal. lia.
      * symmetry. apply andb_true_iff. split; apply N.leb_le; lia.
    + symmetry. apply andb_false_iff. right. apply N.leb_gt. lia.
Qed.

Lemma parse_string_escape_char c s :
  parse_string (escape_char c ++ s) = prepend c (parse_string s).
Proof.
  unfold escape_char.
  destruct (N.eqb_spec c 34) as [->|H34]; [done|].
  destruct (N.eqb_spec c 92) as [->|H92]; [done|].
  destruct (N.eqb_spec c 10) as [->|H10]; [done|].
  destruct (N.eqb_spec c 13) as [->|H13]; [done|].
  destruct (N.eqb_spec c 9) as [->|H9]; [done|].
  destruct (N.eqb_spec c 8) as [->|H8]; [done|].
  destruct (N.eqb_spec c 12) as [->|H12]; [done|].
  destruct (N.ltb_spec c 32) as [Hlt|Hge].
  - cbn [app parse_string].
    change (92 =? 34) with false. change (92 =? 92) with true.
    change (117 =? 117) with true. cbn iota. unfold hex4.
    change (hex_val 48) with (Some 0).
    rewrite !hex_val_digit.
    + replace ((0 * 16 + 0) * 16 + c / 16) with (c / 16) by lia.
      replace (c / 16 * 16 + c mod 16) with c
        by (pose proof (N.div_mod' c 16); lia).
      unfold is_high_surrogate.
      by rewrite (proj2 (N.leb_gt 55296 c)) by lia.
    + apply N.mod_lt. lia.
    + apply N.Div0.div_lt_upper_bound. lia.
  - cbn [app parse_string].
    rewrite (proj2 (N.eqb_neq c 34)), (proj2 (N.eqb_neq c 92)) by done.
    by rewrite (proj2 (N.ltb_ge c 32)).
Qed.

Lemma parse_string_encoded s rest :
  parse_string (flat_map escape_char s ++ 34 :: rest) = Some (s, rest).
Proof.
  induction s as [|c s IH]; [done|].
  cbn [flat_map]. rewrite <- app_assoc, parse_string_escape_char. by rewrite IH.
Qed.

Lemma parse_digits_uint d rest :
  follows_value rest -> parse_digits (uint_digits d ++ rest) = (d, rest).
Proof.
  intros Hrest. induction d; cbn [uint_digits app parse_digits];
    try (change (digit_of _) with (Some Decimal.D0) ||
         change (digit_of _) with (Some Decimal.D1) ||
         change (digit_of _) with (Some Decimal.D2) ||
         change (digit_of _) with (Some Decimal.D3) ||
         change (digit_of _) with (Some Decimal.D4) ||
         change (digit_of _) with (Some Decimal.D5) ||
         change (digit_of _) with (Some Decimal.D6) ||
         change (digit_of _) with (Some Decimal.D7) ||
         change (digit_of _) with (Some Decimal.D8) ||
         change (digit_of _) with (Some Decimal.D9)); rewrite ?IHd; try done.
  destruct rest as [|c r]; [done|]. cbn [parse_digits].
  by destruct Hrest as [-> | ->].
Qed.

Lemma to_uint_no_leading_zero p :
  match Pos.to_uint p with
  | Decimal.Nil | Decimal.D0 _ => False
  | _ => True
  end.
Proof.
  assert (Decimal.unorm (Pos.to_uint p) = Pos.to_uint p) as Hnorm.
  { rewrite <- (DecimalPos.Unsigned.to_of (Pos.to_uint p)).
    by rewrite DecimalPos.Unsigned.of_to. }
  pose proof (DecimalPos.Unsigned.to_uint_nonzero p) as Hnz.
  pose proof (DecimalPos.Unsigned.to_uint_nonnil p) as Hnn.
  destruct (Pos.to_uint p) as [|u| | | | | | | | | ]; try done.
  rewrite DecimalFacts.unorm_D0 in Hnorm.
  assert (u = Decimal.Nil \/ u <> Decimal.Nil) as [->|Hu];
    [destruct u; (by left) || (by right)|done|].
  pose proof (DecimalFacts.nb_digits_unorm u Hu) as Hlen.
  rewrite Hnorm in Hlen. simpl in Hlen. lia.
Qed.

Lemma uint_digits_head d :
  d <> Decimal.Nil ->
  exists c tl, uint_digits d = c :: tl /\ 48 <= c /\ c <= 57.
Proof. destruct d; try done; intros _; eexists _, _; (split; [reflexivity|lia]). Qed.

Lemma parse_int_repr z rest :
  follows_value rest -> parse_int (int_repr z ++ rest) = Some (z, rest).
Proof.
  intros Hrest. unfold parse_int, int_repr.
  pose proof (DecimalZ.of_to z) as Hz.
  assert (match rest with
          | c :: _ => (c =? 46) || (c =? 101) || (c =? 69)
          | [] => false
          end = false) as Hfloat.
  { destruct rest as [|c r]; [done|]. by destruct Hrest as [-> | ->]. }
  assert (forall d, (d = Decimal.D0 Decimal.Nil \/
                     match d with Decimal.Nil | Decimal.D0 _ => False | _ => True end) ->
            match d with
            | Decimal.Nil => false
            | Decimal.D0 Decimal.Nil => true
            | Decimal.D0 _ => false
            | _ => true
            end = true) as Hwf.
  { intros d [->|Hd]; [done|]. by destruct d. }
  assert (forall d, Z.to_int z = Decimal.Pos d \/ Z.to_int z = Decimal.Neg d ->
            d = Decimal.D0 Decimal.Nil \/
            match d with Decimal.Nil | Decimal.D0 _ => False | _ => True end) as Hd.
  { intros d. destruct z as [|p|p]; cbn [Z.to_int]; intros [[= <-]|[= <-]];
      (by left) || (right; apply to_uint_no_leading_zero). }
  destruct (Z.to_int z) as [d|d] eqn:E.
  - destruct (uint_digits_head d) as (c & tl & Hc & Hlo & Hhi).
    { intros ->. by destruct (Hd Decimal.Nil) as [?|?]; [by left|..]. }
    rewrite Hc. cbn [app]. rewrite (proj2 (N.eqb_neq c 45)) by lia.
    rewrite app_comm_cons, <- Hc, parse_digits_uint by done.
    rewrite Hwf, Hfloat by (apply Hd; by left). cbn [andb negb]. by rewrite Hz.
  - cbn [app]. change (45 =? 45) with true. cbn iota.
    rewrite parse_digits_uint by done.
    rewrite Hwf, Hfloat by (apply Hd; by right). cbn [andb negb]. by rewrite Hz.
Qed.

Lemma int_repr_head z :
  exists c tl, int_repr z = c :: tl /\ (c = 45 \/ (48 <= c /\ c <= 57)).
Proof.
  unfold int_repr. destruct (Z.to_int z) as [d|d] eqn:E.
  - destruct (uint_digits_head d) as (c & tl & -> & Hc).
    + intros ->. destruct z as [|p|p]; try done.
      injection E as E. by destruct (DecimalPos.Unsigned.to_uint_nonnil p).
    + eauto.
  - eauto.
Qed.

Lemma parse_value_skip fuel s1 s2 :
  skip_ws s1 = skip_ws s2 -> parse_value fuel s1 = parse_value fuel s2.
Proof. intros H. destruct fuel; [done|]. cbn [parse_value]. by rewrite H. Qed.

Ltac not_char c k := rewrite (proj2 (N.eqb_neq c k)) by lia.

Lemma parse_value_int fuel z rest :
  follows_value rest ->
  parse_value (S fuel) (int_repr z ++ rest) = Some (PyInt z, rest).
Proof.
  intros Hrest. pose proof (parse_int_repr z rest Hrest) as Hint.
  destruct (int_repr_head z) as (c & tl & Hz & Hc). rewrite Hz in *.
  cbn [app parse_value] in *. rewrite skip_ws_id.
  - not_char c 110. not_char c 116. not_char c 102. not_char c 34.
    not_char c 91. not_char c 123. by rewrite Hint.
  - unfold is_ws. not_char c 32. not_char c 9. not_char c 10. by not_char c 13.
Qed.

Lemma iterencode_head lvl v :
  exists c tl, iterencode lvl v = c :: tl /\ is_ws c = false /\ c <> 93 /\ c <> 125.
Proof.
  destruct v as [|[]|z|s|[|x l]|[|kv d]]; try (by eexists _, _).
  destruct (int_repr_head z) as (c & tl & Hz & Hc). exists c, tl.
  split; [done|]. unfold is_ws.
  split; [|lia]. not_char c 32. not_char c 9. not_char c 10. by not_char c 13.
Qed.

Lemma join_cons sep a l :
  join sep (a :: l) = a ++ match l with [] => [] | _ :: _ => sep ++ join sep l end.
Proof. destruct l; [|done]. simpl. by rewrite app_nil_r. Qed.

Lemma dict_set_fresh k v d :
  k ∉ map fst d -> dict_set k v d = d ++ [(k, v)].
Proof.
  induction d as [|[k' v'] d IH]; [done|]. cbn [map fst dict_set app].
  intros H. apply not_elem_of_cons in H as [Hk Hd].
  rewrite bool_decide_false by done. by rewrite IH.
Qed.

Lemma dict_of_pairs_distinct d : NoDup (map fst d) -> dict_of_pairs d = d.
Proof.
  unfold dict_of_pairs. change d with ([] ++ d) at 1 3.
  generalize (@nil (pystr * pyval)) as acc.
  induction d as [|[k v] d IH]; intros acc H; cbn [fold_left fst snd].
  - by rewrite app_nil_r.
  - rewrite dict_set_fresh.
    + rewrite (IH (acc ++ [(k, v)])); rewrite <- app_assoc; done.
    + rewrite map_app in H. apply NoDup_app in H as (_ & H & _).
      intros Hk. apply (H k Hk). cbn [map fst]. apply list_elem_of_here.
Qed.

Lemma list_sum_cons a l : list_sum (a :: l) = (a + list_sum l)%nat.
Proof. reflexivity. Qed.

Lemma expect_cons c s : expect [c] (c :: s) = Some s.
Proof. apply (expect_app [c]). Qed.

Lemma parse_elements_join l lvl rest fuel :
  l <> [] -> Forall roundtrips l -> forallb pyval_wf l = true ->
  (list_sum (map (fun x => S (pyval_size x)) l) <= fuel)%nat ->
  parse_elements fuel
    (newline_indent (S lvl)
     ++ join (44 :: newline_indent (S lvl)) (map (iterencode (S lvl)) l)
     ++ newline_indent lvl ++ 93 :: rest) = Some (l, rest).
Proof.
  revert fuel. induction l as [|x l IH]; [done|].
  intros fuel _ Hall Hwf Hfuel.
  apply Forall_cons in Hall as [Hx Hall].
  cbn [forallb] in Hwf. apply andb_true_iff in Hwf as [Hwx Hwf].
  cbn [map] in Hfuel. rewrite list_sum_cons in Hfuel.
  destruct fuel as [|fuel]; [lia|]. cbn [parse_elements].
  rewrite (parse_value_skip _ _ _ (skip_ws_newline_indent _ _)).
  cbn [map]. rewrite join_cons, <- app_assoc.
  destruct l as [|y l].
  - cbn [map app]. rewrite Hx; [|done|lia|by left].
    rewrite skip_ws_newline_indent, skip_ws_id by done.
    by change (93 =? 44) with false.
  - cbn [map app]. rewrite <- ?app_assoc. cbn [app]. rewrite Hx; [|done|lia|by right].
    rewrite skip_ws_id by done. change (44 =? 44) with true. cbn iota.
    rewrite IH; try done. cbn [map] in *. lia.
Qed.

Lemma parse_members_join d lvl rest fuel :
  d <> [] -> Forall (fun kv => roundtrips (snd kv)) d ->
  forallb (fun kv => pyval_wf (snd kv)) d = true ->
  (list_sum (map (fun kv => S (pyval_size (snd kv))) d) <= fuel)%nat ->
  parse_members fuel
    (newline_indent (S lvl)
     ++ join (44 :: newline_indent (S lvl))
          (map (fun kv => encode_basestring (fst kv) ++ [58; 32]
                          ++ iterencode (S lvl) (snd kv)) d)
     ++ newline_indent lvl ++ 125 :: rest) = Some (d, rest).
Proof.
  revert fuel. induction d as [|[k x] d IH]; [done|].
  intros fuel _ Hall Hwf Hfuel.
  apply Forall_cons in Hall as [Hx Hall]. cbn [snd] in Hx.
  cbn [forallb snd] in Hwf. apply andb_true_iff in Hwf as [Hwx Hwf].
  cbn [map snd] in Hfuel. rewrite list_sum_cons in Hfuel.
  destruct fuel as [|fuel]; [lia|]. cbn [parse_members].
  rewrite skip_ws_newline_indent.
  cbn [map fst snd]. rewrite join_cons. unfold encode_basestring at 1.
  rewrite <- !app_assoc. cbn [app].
  rewrite skip_ws_id by done. rewrite expect_cons.
  rewrite <- !app_assoc. cbn [app].
  rewrite parse_string_encoded. rewrite skip_ws_id by done.
  rewrite expect_cons.
  rewrite (parse_value_skip _ (32 :: _) (iterencode (S lvl) x ++ _)) by done.
  destruct d as [|kv d].
  - cbn [map app]. rewrite Hx; [|done|lia|by left].
    rewrite skip_ws_newline_indent, skip_ws_id by done.
    by change (125 =? 44) with false.
  - cbn [map app]. rewrite <- ?app_assoc. cbn [app]. rewrite Hx; [|done|lia|by right].
    rewrite skip_ws_id by done. change (44 =? 44) with true. cbn iota.
    match goal with |- prepend _ ?t = _ =>
      replace t with (Some (kv :: d, rest)); [done|] end.
    symmetry. apply IH; try done. cbn [map] in *. lia.
Qed.

Lemma iterencode_roundtrips v : roundtrips v.
Proof.
  induction v as [|b|z|s|l IH|d IH] using pyval_nested_ind;
    intros lvl rest fuel Hwf Hfuel Hrest;
    (destruct fuel as [|fuel]; [cbn [pyval_size] in Hfuel; lia|]).
  - done.
  - by destruct b.
  - by apply parse_value_int.
  - cbn [iterencode]. unfold encode_basestring. cbn [app]. rewrite <- app_assoc.
    cbn [app parse_value skip_ws is_ws N.eqb Pos.eqb orb].
    change (34 =? 110) with false. change (34 =? 116) with false.
    change (34 =? 102) with false. change (34 =? 34) with true. cbn iota.
    by rewrite parse_string_encoded.
  - destruct l as [|x l]; [done|].
    cbn [iterencode app]. rewrite <- !app_assoc.
    cbn [app parse_value skip_ws is_ws N.eqb Pos.eqb orb].
    cbn [pyval_size] in Hfuel.
    rewrite parse_elements_join; [|done|done|done|lia].
    rewrite skip_ws_newline_indent. cbn [map]. rewrite join_cons.
    destruct (iterencode_head (S lvl) x) as (c & tl & Hc & Hws & Hne & _).
    rewrite Hc. rewrite <- ?app_assoc. cbn [app].
    by rewrite skip_ws_id, expect_cons_ne by done.
  - destruct d as [|[k x] d]; [done|].
    cbn [pyval_wf] in Hwf. apply andb_true_iff in Hwf as [Hnd Hwf].
    apply bool_decide_eq_true in Hnd.
    cbn [iterencode app]. rewrite <- !app_assoc.
    cbn [app parse_value skip_ws is_ws N.eqb Pos.eqb orb].
    cbn [pyval_size] in Hfuel.
    rewrite parse_members_join; [|done|done|done|lia].
    rewrite dict_of_pairs_distinct by done.
    rewrite skip_ws_newline_indent. cbn [map fst snd]. rewrite join_cons.
    unfold encode_basestring at 1. rewrite <- ?app_assoc. cbn [app].
    by rewrite skip_ws_id, expect_cons_ne by done.
Qed.

Lemma join_length sep chunks :
  (1 <= length sep)%nat ->
  (list_sum (map (fun c => S (length c)) chunks) <= S (length (join sep chunks)))%nat.
Proof.
  intros Hsep. induction chunks as [|a l IH]; [simpl; lia|].
  rewrite join_cons. cbn [map]. rewrite list_sum_cons, length_app.
  destruct l as [|b l]; [simpl; lia|].
  rewrite length_app. lia.
Qed.

Lemma list_sum_le {A} (f g : A -> nat) l :
  Forall (fun x => f x <= g x)%nat l ->
  (list_sum (map f l) <= list_sum (map g l))%nat.
Proof.
  induction 1 as [|x l Hx _ IH]; [done|]. cbn [map]. rewrite !list_sum_cons. lia.
Qed.

(** The encoding of a value has at least as many characters as the value
    has nodes. *)
Lemma iterencode_length v lvl : (pyval_size v <= length (iterencode lvl v))%nat.
Proof.
  revert lvl. induction v as [|b|z|s|l IH|d IH] using pyval_nested_ind; intros lvl.
  - simpl. lia.
  - destruct b; simpl; lia.
  - destruct (int_repr_head z) as (c & tl & Hz & _). cbn [iterencode pyval_size].
    rewrite Hz. simpl. lia.
  - simpl. lia.
  - destruct l as [|x l]; [simpl; lia|].
    cbn [iterencode pyval_size]. cbn [length]. rewrite !length_app.
    pose proof (join_length (44 :: newline_indent (S lvl))
                  (map (iterencode (S lvl)) (x :: l))) as Hj.
    rewrite map_map in Hj.
    pose proof (list_sum_le (fun x => S (pyval_size x))
                  (fun x => S (length (iterencode (S lvl) x))) (x :: l)) as Hs.
    cbn [length] in *. unfold newline_indent in *. cbn [length] in *.
    assert (Forall (fun x => (S (pyval_size x) <= S (length (iterencode (S lvl) x)))%nat)
              (x :: l)) as Hall.
    { eapply Forall_impl; [exact IH|]. intros y Hy. cbn beta. pose proof (Hy (S lvl)). lia. }
    specialize (Hs Hall). lia.
  - destruct d as [|kv d]; [simpl; lia|].
    cbn [iterencode pyval_size]. cbn [length]. rewrite !length_app.
    pose proof (join_length (44 :: newline_indent (S lvl))
                  (map (fun kv => encode_basestring (fst kv) ++ [58; 32]
                                  ++ iterencode (S lvl) (snd kv)) (kv :: d))) as Hj.
    rewrite map_map in Hj.
    pose proof (list_sum_le (fun kv => S (pyval_size (snd kv)))
                  (fun kv => S (length (encode_basestring (fst kv) ++ [58; 32]
                                        ++ iterencode (S lvl) (snd kv)))) (kv :: d)) as Hs.
    cbn [length] in *. unfold newline_indent in *. cbn [length] in *.
    assert (Forall (fun kv => (S (pyval_size (snd kv)) <=
                      S (length (encode_basestring (fst kv) ++ [58%N; 32%N]
                                 ++ iterencode (S lvl) (snd kv))))%nat) (kv :: d)) as Hall.
    { eapply Forall_impl; [exact IH|]. intros y Hy. cbn beta.
      pose proof (Hy (S lvl)). rewrite !length_app. lia. }
    specialize (Hs Hall). lia.
Qed.

(** Parsing what [json.dumps] wrote gives back the value it was given. *)
Lemma json_loads_dumps v : pyval_wf v = true -> json_loads (json_dumps v) = Some v.
Proof.
  intros Hwf. unfold json_loads, json_dumps.
  pose proof (iterencode_roundtrips v 0%nat [] (length (iterencode 0 v)) Hwf
                (iterencode_length v 0%nat) I) as H.
  rewrite app_nil_r in H. by rewrite H.
Qed.

(** ** The [finally] clause *)

Lemma truthy_Some (s : pystr) : s <> [] -> truthy (Some s) = true.
Proof. by destruct s. Qed.

Ltac mcase :=
  match goal with
  | |- context [truthy None] => change (truthy None) with false
  | |- context [truthy (Some ?x)] => rewrite (truthy_Some x) by done
  | |- context [match unlink_fault ?env with _ => _ end] => destruct (unlink_fault env) eqn:?
  | |- context [match rmdir_fault ?env with _ => _ end] => destruct (rmdir_fault env) eqn:?
  | |- context [bool_decide ?P] => destruct (bool_decide_reflect P)
  | |- context [if truthy ?x then _ else _] => destruct (truthy x) eqn:?
  end.

Lemma cleanup_returns env st : fst (cleanup env st) = Ok tt.
Proof.
  unfold_M. msimpl. repeat (mcase; msimpl); done.
Qed.

Lemma cleanup_locals env st :
  temp_dir (snd (cleanup env st)) = temp_dir st /\
  temp_path (snd (cleanup env st)) = temp_path st.
Proof.
  unfold_M. msimpl. repeat (mcase; msimpl); done.
Qed.

Lemma cleanup_removes env st d p :
  temp_dir st = Some d -> temp_path st = Some p -> d <> [] -> p <> [] ->
  d ∈ dirs (fs st) ->
  let st' := snd (cleanup env st) in
  ((d ∉ dirs (fs st')) /\ files (fs st') !! p = None) \/
  (exists m, log st' = log st ++ [cleanup_warning m]).
Proof using Type.
  clear isalnum_ascii lower_ascii lower_high isalnum lower_piece.
  destruct st as [f l t td tp]. msimpl. intros -> -> Hdne Hpne Hin.
  unfold_M. msimpl.
  repeat (mcase; msimpl); try done; try (right; eexists; reflexivity); left.
  all: split; [set_solver|].
  all: try by apply lookup_delete_eq.
  all: by rewrite eq_None_not_Some.
Qed.

Lemma dir_empty_after_unlink f d p :
  (forall q, q ∈ dirs f -> ~ is_under d q) ->
  (forall q, is_Some (files f !! q) -> is_under d q -> q = p) ->
  ~ dir_nonempty {| dirs := dirs f; files := delete p (files f) |} d.
Proof.
  intros Hdirs Hfiles (q & Hq & Hu). cbn [dirs files] in Hq.
  apply elem_of_union in Hq as [Hq|Hq]; [by eapply Hdirs|].
  apply elem_of_dom in Hq. destruct (decide (q = p)) as [->|Hne].
  - rewrite lookup_delete_eq in Hq. by destruct Hq.
  - rewrite lookup_delete_ne in Hq by done. by apply Hne, Hfiles.
Qed.

Lemma dir_empty_without_file f d p :
  (forall q, q ∈ dirs f -> ~ is_under d q) ->
  (forall q, is_Some (files f !! q) -> is_under d q -> q = p) ->
  ~ is_Some (files f !! p) ->
  ~ dir_nonempty f d.
Proof.
  intros Hdirs Hfiles Hp (q & Hq & Hu).
  apply elem_of_union in Hq as [Hq|Hq]; [by eapply Hdirs|].
  apply elem_of_dom in Hq. by rewrite (Hfiles q Hq Hu) in Hq.
Qed.

Lemma cleanup_removes_nofault env st d p :
  unlink_fault env = None -> rmdir_fault env = None ->
  temp_dir st = Some d -> temp_path st = Some p -> d <> [] -> p <> [] ->
  d ∈ dirs (fs st) ->
  (forall q, q ∈ dirs (fs st) -> ~ is_under d q) ->
  (forall q, is_Some (files (fs st) !! q) -> is_under d q -> q = p) ->
  let st' := snd (cleanup env st) in
  (d ∉ dirs (fs st')) /\ files (fs st') !! p = None.
Proof using Type.
  clear isalnum_ascii lower_ascii lower_high isalnum lower_piece.
  destruct st as [f l t td tp]. msimpl.
  intros Hu Hr -> -> Hdne Hpne Hin Hdirs Hfiles.
  unfold_M. msimpl. rewrite Hu, Hr.
  repeat (mcase; msimpl); try done.
  - by destruct (dir_empty_after_unlink f d p).
  - split; [set_solver|]. apply lookup_delete_eq.
  - by destruct (dir_empty_without_file f d p).
  - split; [set_solver|]. by rewrite eq_None_not_Some.
Qed.

Lemma os_path_join_nonempty a b : b <> [] -> os_path_join a b <> [].
Proof.
  unfold os_path_join. intros Hb.
  repeat case_match; try done; by destruct a, b.
Qed.

Lemma not_under_self (d : pystr) : ~ is_under d d.
Proof.
  intros H. apply prefix_length in H. rewrite length_app in H. simpl in H. lia.
Qed.

Lemma unused_spec f d :
  unused f d = true ->
  (d ∉ dirs f) /\ files f !! d = None /\
  (forall q, q ∈ dirs f -> ~ is_under d q) /\
  (forall q, is_Some (files f !! q) -> ~ is_under d q).
Proof.
  unfold unused. rewrite !andb_true_iff, !negb_true_iff, !bool_decide_eq_false.
  intros [[Hd Hf] Hn]. split; [done|]. split; [by apply eq_None_not_Some|].
  split; intros q Hq Hu; apply Hn; exists q; (split; [|done]).
  - by apply elem_of_union_l.
  - by apply elem_of_union_r, elem_of_dom.
Qed.

Lemma staged_inv f d p files1 :
  unused f d = true ->
  (files1 = files f \/ exists x, files1 = <[p:=x]> (files f)) ->
  d ∈ ({[d]} ∪ dirs f : gset pystr) /\
  (forall q, q ∈ ({[d]} ∪ dirs f : gset pystr) -> ~ is_under d q) /\
  (forall q, is_Some (files1 !! q) -> is_under d q -> q = p).
Proof using Type.
  clear isalnum_ascii lower_ascii lower_high isalnum lower_piece.
  intros (Hd & Hf & Hdirs & Hfiles)%unused_spec Hfiles1.
  split; [set_solver|]. split.
  - intros q [->%elem_of_singleton|Hq]%elem_of_union.
    + apply not_under_self.
    + by apply Hdirs.
  - intros q Hq Hu. destruct Hfiles1 as [->|[x ->]].
    + by destruct (Hfiles q).
    + destruct (decide (p = q)) as [|Hne]; [done|].
      rewrite lookup_insert_ne in Hq by done. by destruct (Hfiles q).
Qed.

Ltac bcase :=
  match goal with
  | |- context [has_pdf_extension ?x] => destruct (has_pdf_extension x) eqn:?
  | |- context [match read_fault ?env with _ => _ end] => destruct (read_fault env) as [[]|] eqn:?
  | |- context [match mkdtemp_fault ?env with _ => _ end] => destruct (mkdtemp_fault env) as [[]|] eqn:?
  | |- context [match open_fault ?env with _ => _ end] => destruct (open_fault env) as [[]|] eqn:?
  | |- context [match write_fault ?env with _ => _ end] => destruct (write_fault env) as [[]|] eqn:?
  | |- context [unused ?f ?d] => destruct (unused f d) eqn:?
  | |- context [match page_index_main ?env ?p ?f with _ => _ end] =>
      destruct (page_index_main env p f) as [|[]] eqn:?
  | |- context [match dumps_fault ?env ?v with _ => _ end] =>
      destruct (dumps_fault env v) eqn:?
  | |- context [existsb is_surrogate ?x] => destruct (existsb is_surrogate x) eqn:?
  end.

Lemma sanitized_nonempty s : sanitized s <> [].
Proof. unfold sanitized. by destruct (List.filter allowed s). Qed.

Lemma safe_name_nonempty s : safe_name s <> [].
Proof.
  unfold safe_name. pose proof (sanitized_nonempty s) as H.
  destruct (negb _); [|done]. by destruct (sanitized s).
Qed.

(** ** The [try] statement *)

(** Where the [try] statement leaves the state: either no directory was
    made and the file system is untouched, or the locals name the new
    directory, which exists, and the only thing below it is the staged
    file. *)
Lemma body_inv env file st :
  let st1 := snd (try_except (run_body env file) run_except (enter st)) in
  match temp_dir st1 with
  | None => fs st1 = fs st
  | Some d =>
      exists p, temp_path st1 = Some p /\ d <> [] /\ p <> [] /\
        (d ∉ dirs (fs st)) /\ d ∈ dirs (fs st1) /\
        (forall q, q ∈ dirs (fs st1) -> ~ is_under d q) /\
        (forall q, is_Some (files (fs st1) !! q) -> is_under d q -> q = p)
  end.
Proof.
  unfold_M. cbn beta iota zeta. msimpl.
  repeat (bcase; msimpl); try done.
  all: eexists; split; [reflexivity|].
  all: split; [by apply os_path_join_nonempty|].
  all: split; [apply os_path_join_nonempty, safe_name_nonempty|].
  all: split; [by eapply unused_spec|].
  all: eapply staged_inv; [done|]; rewrite ?insert_insert_eq; eauto.
Qed.

(** What the [try] statement does, step by step: its I/O operations are
    an initial part of [full_trace]; a filename that fails the check stops
    it before the first of them; and it returns a response only after the
    last of them, the engine's answer serialized. *)
Lemma body_spec env file st :
  let tried := try_except (run_body env file) run_except (enter st) in
  let fn := filename_or_unknown (filename file) in
  let p := staged_path env file in
  exists evs,
    trace (snd tried) = trace st ++ evs /\
    evs `prefix_of` full_trace env file (fs st) /\
    (if has_pdf_extension fn then exists evs', evs = EvRead :: evs'
     else tried = (Raise not_a_pdf,
                   {| fs := fs st; log := log st ++ [rejected_warning fn];
                      trace := trace st; temp_dir := None; temp_path := None |})) /\
    (forall resp, fst tried = Ok resp ->
       exists v, evs = full_trace env file (fs st) /\
         page_index_main env p (staged_fs env file (fs st)) = Ok v /\
         resp = mkResponse (json_dumps v) (str "application/json")) /\
    (forall q, EvOpen q ∈ evs \/ EvWrite q ∈ evs ->
       q = p /\ temp_dir (snd tried) = Some (new_dir env)) /\
    (files (fs (snd tried)) = files (fs st) \/
     (temp_dir (snd tried) = Some (new_dir env) /\
      exists x, files (fs (snd tried)) = <[p := x]> (files (fs st)))).
Proof.
  unfold_M. cbn beta iota zeta. msimpl.
  repeat (bcase; msimpl; rewrite ?insert_insert_eq).
  all: unfold full_trace, staged_fs, staged_path, new_dir, not_a_pdf, rejected_warning.
  all: rewrite <- ?app_assoc; cbn [app].
  all: try match goal with H : page_index_main _ _ _ = _ |- _ => rewrite H end.
  all: eexists; split; [try reflexivity; symmetry; apply app_nil_r|].
  all: split; [by eexists|].
  all: split; [try done; by eexists|].
  all: split; [intros resp [= <-] || (intros resp [=]); eexists; repeat split; try done; by f_equal|].
  all: split; [|by eauto].
  all: intros q [Hq|Hq]; repeat (apply elem_of_cons in Hq as [Hq|Hq]);
    try discriminate Hq; try (by apply elem_of_nil in Hq); by injection Hq as ->.
Qed.

Lemma cleanup_trace env st :
  exists cevs, trace (snd (cleanup env st)) = trace st ++ cevs /\
    forall ev, ev ∈ cevs ->
      (exists p, ev = EvUnlink p /\ temp_path st = Some p) \/
      (exists d, ev = EvRmdir d /\ temp_dir st = Some d).
Proof.
  destruct st as [f l t [d|] [p|]]; unfold_M; msimpl.
  all: repeat (mcase; msimpl).
  all: rewrite <- ?app_assoc; cbn [app].
  all: eexists; split; [try reflexivity; symmetry; apply app_nil_r|].
  all: intros ev Hev; repeat (apply elem_of_cons in Hev as [->|Hev]); eauto.
  all: by apply elem_of_nil in Hev.
Qed.

Lemma cleanup_files env st :
  files (fs (snd (cleanup env st))) = files (fs st) \/
  exists p, temp_path st = Some p /\
    files (fs (snd (cleanup env st))) = delete p (files (fs st)).
Proof.
  destruct st as [f l t [d|] [p|]]; unfold_M; msimpl.
  all: repeat (mcase; msimpl); eauto.
Qed.

Lemma cleanup_skip env st : temp_dir st = None -> cleanup env st = (Ok tt, st).
Proof. intros H. unfold_M. msimpl. by rewrite H. Qed.

Lemma run_unfold env file st :
  let tried := try_except (run_body env file) run_except (enter st) in
  run env file st = (fst tried, snd (cleanup env (snd tried))).
Proof.
  cbv zeta. unfold run, try_finally.
  destruct (try_except _ _ _) as [r st1]. cbn [fst snd].
  pose proof (cleanup_returns env st1) as H.
  destruct (cleanup env st1) as [[[]|e] st2]; [reflexivity|discriminate].
Qed.

Lemma lower_from_ascii s0 i s :
  Forall (fun c => c < 128) s -> lower_from s0 i s = map ascii_lower s.
Proof.
  intros H. revert i. induction H as [|c s Hc _ IH]; intros i; simpl; [done|].
  by rewrite lower_ascii, IH.
Qed.

Lemma unknown_has_no_pdf_extension : has_pdf_extension (str "unknown") = false.
Proof.
  unfold has_pdf_extension, lower. rewrite lower_from_ascii; [done|].
  apply Forall_forall. intros c Hc. apply list_elem_of_In in Hc.
  vm_compute in Hc. intuition (subst; done).
Qed.

Lemma run_rejected env file st :
  has_pdf_extension (filename_or_unknown (filename file)) = false ->
  run env file st =
    (Raise not_a_pdf,
     {| fs := fs st;
        log := log st ++ [rejected_warning (filename_or_unknown (filename file))];
        trace := trace st; temp_dir := None; temp_path := None |}).
Proof.
  intros H. rewrite run_unfold.
  destruct (body_spec env file st) as (evs & _ & _ & Hrej & _).
  rewrite H in Hrej. rewrite Hrej. cbn [fst snd]. by rewrite cleanup_skip.
Qed.

Lemma run_trace env file st :
  exists evs cevs,
    trace (snd (run env file st)) = trace st ++ evs ++ cevs /\
    trace (snd (try_except (run_body env file) run_except (enter st))) = trace st ++ evs /\
    forall ev, ev ∈ cevs -> (exists p, ev = EvUnlink p) \/ (exists d, ev = EvRmdir d).
Proof.
  rewrite run_unfold. cbn [fst snd].
  destruct (body_spec env file st) as (evs & Htr & _).
  destruct (cleanup_trace env (snd (try_except (run_body env file) run_except (enter st))))
    as (cevs & Hc & Hev).
  exists evs, cevs. rewrite Hc, Htr, app_assoc. split; [done|]. split; [done|].
  intros ev H. destruct (Hev ev H) as [(p & -> & _)|(d & -> & _)]; eauto.
Qed.

Lemma startswith_slash (name : pystr) : 47 ∉ name -> startswith name [47] = false.
Proof.
  intros H. apply bool_decide_eq_false. intros [k ->]. apply H, list_elem_of_here.
Qed.

Lemma os_path_join_child d name :
  47 ∉ name ->
  os_path_join d name = d ++ 47 :: name \/
  ((d = [] \/ endswith d [47] = true) /\ os_path_join d name = d ++ name).
Proof.
  intros Hs. unfold os_path_join. rewrite startswith_slash by done.
  destruct (bool_decide_reflect (d = [])); cbn [orb]; [by auto|].
  destruct (endswith d [47]) eqn:E2; [right|left]; auto.
Qed.

Lemma safe_name_not_dots s : safe_name s <> [46] /\ safe_name s <> [46; 46].
Proof.
  pose proof (ends_with_pdf_ci_length _ (safe_name_ci s)) as Hl.
  split; intros H; rewrite H in Hl; simpl in Hl; lia.
Qed.

Lemma staged_path_child env file :
  is_direct_child (new_dir env) (staged_path env file).
Proof.
  unfold staged_path. set (name := safe_name _).
  exists name. split; [apply safe_name_no_slash|].
  split; [apply safe_name_nonempty|].
  split; [apply safe_name_not_dots|]. split; [apply safe_name_not_dots|].
  destruct (os_path_join_child (new_dir env) name) as [H|[[H|H] H']];
    [apply safe_name_no_slash|by left| |by right].
  by destruct (os_path_join_nonempty (gettempdir env) (str "pageindex_" ++ mkdtemp_random env)).
Qed.

Lemma body_locals env file st :
  let st1 := snd (try_except (run_body env file) run_except (enter st)) in
  (temp_dir st1 = None /\ temp_path st1 = None) \/
  (temp_dir st1 = Some (new_dir env) /\ temp_path st1 = Some (staged_path env file)).
Proof.
  unfold_M. cbn beta iota zeta. msimpl.
  repeat (bcase; msimpl); auto.
Qed.

(** Whatever the request, [run] leaves every file other than the staged
    one as it found it. *)
Lemma run_files env file st :
  let st' := snd (run env file st) in
  forall q, q <> staged_path env file -> files (fs st') !! q = files (fs st) !! q.
Proof.
  cbv zeta. intros q Hq. rewrite run_unfold. cbn [fst snd].
  set (tried := try_except _ _ _).
  destruct (body_spec env file st) as (evs & _ & _ & _ & _ & _ & Hfiles).
  fold tried in Hfiles.
  assert (files (fs (snd tried)) !! q = files (fs st) !! q) as <-.
  { destruct Hfiles as [->|[_ [x ->]]]; [done|]. by rewrite lookup_insert_ne. }
  destruct (cleanup_files env (snd tried)) as [->|(p & Hp & ->)]; [done|].
  apply lookup_delete_ne. intros ->. apply Hq.
  destruct (body_locals env file st) as [[_ H]|[_ H]]; fold tried in H; congruence.
Qed.

(** What the [finally] clause leaves: no directory made, and the file
    system untouched; or the directory made for this request, and then
    it and the staged file are gone or the failure to remove them was
    logged. *)
Lemma finally_removes env file st :
  let tried := try_except (run_body env file) run_except (enter st) in
  let st' := snd (run env file st) in
  match temp_dir st' with
  | None => fs st' = fs st
  | Some d =>
      (d ∉ dirs (fs st)) /\
      (((d ∉ dirs (fs st')) /\
        forall p, temp_path st' = Some p -> files (fs st') !! p = None) \/
       exists m, log st' = log (snd tried) ++ [cleanup_warning m])
  end.
Proof.
  cbv zeta. rewrite run_unfold. cbn [fst snd].
  set (tried := try_except _ _ _).
  pose proof (body_inv env file st) as Hinv. cbv zeta in Hinv. fold tried in Hinv.
  destruct (cleanup_locals env (snd tried)) as [Hd Hp]. rewrite Hd, Hp.
  destruct (temp_dir (snd tried)) as [d|] eqn:Ed.
  - destruct Hinv as (p & Ep & Hdne & Hpne & Hfresh & Hin & Hdirs & Hfiles).
    rewrite Ep. split; [done|].
    destruct (cleanup_removes env (snd tried) d p) as [[H1 H2]|H]; try done.
    + left. split; [done|]. by intros ? [= <-].
    + by right.
  - by rewrite cleanup_skip.
Qed.

Lemma finally_removes_nofault env file st :
  let st' := snd (run env file st) in
  unlink_fault env = None -> rmdir_fault env = None ->
  forall d, temp_dir st' = Some d ->
    (d ∉ dirs (fs st')) /\
    forall p, temp_path st' = Some p -> files (fs st') !! p = None.
Proof.
  cbv zeta. rewrite run_unfold. cbn [fst snd].
  set (tried := try_except _ _ _).
  pose proof (body_inv env file st) as Hinv. cbv zeta in Hinv. fold tried in Hinv.
  destruct (cleanup_locals env (snd tried)) as [Hd Hp]. rewrite Hd, Hp.
  intros Hu Hr d Ed. rewrite Ed in Hinv.
  destruct Hinv as (p & Ep & Hdne & Hpne & Hfresh & Hin & Hdirs & Hfiles).
  rewrite Ep.
  destruct (cleanup_removes_nofault env (snd tried) d p) as [H1 H2]; try done.
  split; [done|]. by intros ? [= <-].
Qed.

Lemma cleanup_log env st :
  log (snd (cleanup env st)) = log st \/
  exists m, log (snd (cleanup env st)) = log st ++ [cleanup_warning m].
Proof.
  destruct st as [f l t [d|] [p|]]; unfold_M; msimpl.
  all: repeat (mcase; msimpl); eauto.
Qed.

Lemma run_ok env file st resp :
  fst (run env file st) = Ok resp ->
  exists v,
    page_index_main env (staged_path env file) (staged_fs env file (fs st)) = Ok v /\
    resp = mkResponse (json_dumps v) (str "application/json").
Proof.
  rewrite run_unfold. cbn [fst]. intros H.
  destruct (body_spec env file st) as (evs & _ & _ & _ & Hok & _).
  destruct (Hok resp H) as (v & _ & Hv & ->). eauto.
Qed.

Lemma escape_char_verbatim c :
  32 <= c -> c <> 34 -> c <> 92 -> escape_char c = [c].
Proof.
  intros H32 H34 H92. unfold escape_char.
  not_char c 34. not_char c 92. not_char c 10. not_char c 13. not_char c 9.
  not_char c 8. not_char c 12. by rewrite (proj2 (N.ltb_ge c 32)).
Qed.

(** ** The layout of the body *)

Lemma quoted_encoded s : quoted s = encode_basestring s.
Proof.
  unfold quoted, encode_basestring. do 2 f_equal.
  induction s as [|c s IH]; [done|]. cbn [flat_map]. rewrite IH. f_equal.
  destruct (N.leb_spec 128 c); [|done].
  symmetry. apply escape_char_verbatim; lia.
Qed.

Lemma unlines_cons l r :
  r <> [] -> unlines (l :: r) = repeat 32 (2 * fst l) ++ snd l ++ 10 :: unlines r.
Proof. by destruct r. Qed.

Lemma unlines_app a b :
  a <> [] -> b <> [] -> unlines (a ++ b) = unlines a ++ 10 :: unlines b.
Proof.
  intros Ha Hb. induction a as [|l a IH]; [done|].
  destruct a as [|l' a].
  - cbn [app]. rewrite unlines_cons by done. cbn [unlines]. by rewrite <- app_assoc.
  - change ((l :: l' :: a) ++ b) with (l :: (l' :: a) ++ b).
    rewrite !unlines_cons by done. rewrite IH by done.
    by rewrite <- !app_assoc.
Qed.

Lemma append_to_last_nonempty suffix b : b <> [] -> append_to_last suffix b <> [].
Proof. destruct b as [|l [|l' r]]; done. Qed.

Lemma unlines_append_to_last suffix b :
  b <> [] -> unlines (append_to_last suffix b) = unlines b ++ suffix.
Proof.
  intros Hb. induction b as [|l b IH]; [done|].
  destruct b as [|l' b].
  - cbn [append_to_last unlines fst snd]. by rewrite <- app_assoc.
  - change (append_to_last suffix (l :: l' :: b))
      with (l :: append_to_last suffix (l' :: b)).
    rewrite !unlines_cons by (done || by apply append_to_last_nonempty).
    rewrite IH by done. by rewrite <- !app_assoc.
Qed.

Lemma comma_separated_nonempty bs :
  bs <> [] -> Forall (fun b => b <> []) bs -> comma_separated bs <> [].
Proof.
  intros Hne H. destruct H as [|b r Hb Hr]; [done|].
  destruct r as [|b' r]; [done|].
  change (comma_separated (b :: b' :: r))
    with (append_to_last [44] b ++ comma_separated (b' :: r)).
  intros E. apply app_eq_nil in E as [E _]. by apply append_to_last_nonempty in E.
Qed.

(** Blocks that each start behind [ind], joined: the text starts behind
    [ind], and the comma, the line feed and [ind] stand between one item
    and the next. *)
Lemma unlines_comma_separated (ind : pystr) bs texts :
  Forall2 (fun b t => b <> [] /\ unlines b = ind ++ t) bs texts ->
  bs <> [] ->
  unlines (comma_separated bs) = ind ++ join (44 :: 10 :: ind) texts.
Proof.
  intros H. induction H as [|b t bs texts [Hb Ht] Hr IH]; [done|]. intros _.
  destruct Hr as [|b' t' bs texts Hb' Hr]; [done|].
  change (comma_separated (b :: b' :: bs))
    with (append_to_last [44] b ++ comma_separated (b' :: bs)).
  change (join (44 :: 10 :: ind) (t :: t' :: texts))
    with (t ++ (44 :: 10 :: ind) ++ join (44 :: 10 :: ind) (t' :: texts)).
  rewrite unlines_app.
  - rewrite unlines_append_to_last by done. rewrite Ht, IH by done.
    rewrite <- !app_assoc. reflexivity.
  - by apply append_to_last_nonempty.
  - apply comma_separated_nonempty; [done|].
    constructor; [apply Hb'|]. eapply Forall2_Forall_l; [exact Hr|].
    apply Forall_true. by intros ? ? [? _].
Qed.

Lemma indented_lines_head depth v :
  exists t r, indented_lines depth v = (depth, t) :: r.
Proof. destruct v as [|[]| | |[|x l]|[|x d]]; cbn [indented_lines]; eauto. Qed.

Lemma unlines_prepend_to_first depth pre b t :
  unlines b = repeat 32 (2 * depth) ++ t ->
  (exists t0 r, b = (depth, t0) :: r) ->
  prepend_to_first pre b <> [] /\
  unlines (prepend_to_first pre b) = repeat 32 (2 * depth) ++ pre ++ t.
Proof.
  intros Hb (t0 & r & ->). split; [done|]. cbn [prepend_to_first fst snd].
  destruct r as [|l r].
  - cbn [unlines fst snd] in *. apply app_inv_head in Hb as <-.
    by rewrite <- ?app_assoc.
  - rewrite unlines_cons in * by done. cbn [fst snd] in *.
    apply app_inv_head in Hb as <-. by rewrite <- ?app_assoc.
Qed.

(** The encoder's output is the text of the value's lines, short of the
    indentation of the first, which the encoder leaves to its caller. *)
Lemma iterencode_layout v depth :
  unlines (indented_lines depth v) = repeat 32 (2 * depth) ++ iterencode depth v.
Proof.
  revert depth. induction v as [| b | z | s | l IH | d IH] using pyval_nested_ind;
    intros depth.
  - done.
  - by destruct b.
  - done.
  - cbn [indented_lines unlines iterencode fst snd]. by rewrite quoted_encoded.
  - destruct l as [|x l]; [done|].
    set (items := x :: l) in *.
    assert (indented_lines depth (PyList items) =
            (depth, [91]) :: comma_separated (map (indented_lines (S depth)) items)
            ++ [(depth, [93])]) as -> by done.
    assert (iterencode depth (PyList items) =
            91 :: newline_indent (S depth)
            ++ join (44 :: newline_indent (S depth)) (map (iterencode (S depth)) items)
            ++ newline_indent depth ++ [93]) as -> by done.
    assert (comma_separated (map (indented_lines (S depth)) items) <> []) as Hne.
    { apply comma_separated_nonempty; [done|]. apply Forall_map, Forall_true.
      intros v. by destruct (indented_lines_head (S depth) v) as (t & r & ->). }
    rewrite unlines_cons by (by destruct (comma_separated _)).
    rewrite unlines_app by done.
    rewrite (unlines_comma_separated (repeat 32 (2 * S depth)) _
               (map (iterencode (S depth)) items)); [|
      apply Forall2_fmap, Forall_Forall2_diag;
        eapply Forall_impl; [exact IH|]; intros v Hv; split; [|apply Hv];
          by destruct (indented_lines_head (S depth) v) as (t & r & ->) | done].
    unfold newline_indent. cbn [unlines fst snd app].
    rewrite <- !app_assoc. reflexivity.
  - destruct d as [|x d]; [done|].
    set (items := x :: d) in *.
    set (entry := fun kv : pystr * pyval =>
                    prepend_to_first (quoted (fst kv) ++ [58; 32])
                      (indented_lines (S depth) (snd kv))).
    set (entry_text := fun kv : pystr * pyval =>
                    encode_basestring (fst kv) ++ [58; 32]
                    ++ iterencode (S depth) (snd kv)).
    assert (indented_lines depth (PyDict items) =
            (depth, [123]) :: comma_separated (map entry items)
            ++ [(depth, [125])]) as -> by done.
    assert (iterencode depth (PyDict items) =
            123 :: newline_indent (S depth)
            ++ join (44 :: newline_indent (S depth)) (map entry_text items)
            ++ newline_indent depth ++ [125]) as -> by done.
    assert (Forall (fun kv => entry kv <> [] /\
                      unlines (entry kv) = repeat 32 (2 * S depth) ++ entry_text kv)
              items) as Hentries.
    { eapply Forall_impl; [exact IH|]. intros [k v] Hv. unfold entry, entry_text.
      cbn [fst snd] in *.
      destruct (unlines_prepend_to_first (S depth) (quoted k ++ [58; 32])
                  (indented_lines (S depth) v) (iterencode (S depth) v))
        as [H1 H2]; [apply Hv|apply indented_lines_head|].
      split; [done|]. rewrite H2, quoted_encoded. by rewrite <- !app_assoc. }
    assert (comma_separated (map entry items) <> []) as Hne.
    { apply comma_separated_nonempty; [done|]. apply Forall_map.
      eapply Forall_impl; [exact Hentries|]. by intros kv [? _]. }
    rewrite unlines_cons by (by destruct (comma_separated _)).
    rewrite unlines_app by done.
    rewrite (unlines_comma_separated (repeat 32 (2 * S depth)) _
               (map entry_text items)); [|
      by apply Forall2_fmap, Forall_Forall2_diag | done].
    unfold newline_indent. cbn [unlines fst snd app].
    rewrite <- !app_assoc. reflexivity.
Qed.

(** ** The claims *)

(** C1.  On every exit path of [run] (success, validation failure,
    exception) the [finally] clause has run by the time the handler
    returns: the response is the one the [try] statement determined; the
    temporary directory this request created and the file staged in it are
    gone, unless removing them failed, and then the failure was logged as
    a warning; and when neither [os.unlink] nor [os.rmdir] fails they are
    gone (the engine, as everywhere here, having left the file system as
    it found it).  A request that created no directory leaves the file
    system as it found it. *)
Theorem run_cleans_up env file st :
  let tried := try_except (run_body env file) run_except (enter st) in
  let st' := snd (run env file st) in
  fst (run env file st) = fst tried /\
  match temp_dir st' with
  | None => fs st' = fs st
  | Some d =>
      (d ∉ dirs (fs st)) /\
      (((d ∉ dirs (fs st')) /\
        forall p, temp_path st' = Some p -> files (fs st') !! p = None) \/
       exists m, log st' = log (snd tried) ++ [cleanup_warning m])
  end /\
  (unlink_fault env = None -> rmdir_fault env = None ->
   forall d, temp_dir st' = Some d ->
     (d ∉ dirs (fs st')) /\
     forall p, temp_path st' = Some p -> files (fs st') !! p = None).
Proof.
  intros tried st'. split; [|split].
  - unfold tried. by rewrite run_unfold.
  - apply finally_removes.
  - apply finally_removes_nofault.
Qed.

(** C2.  The check of line 53 is the case-insensitive comparison of the
    filename's last four characters with [.pdf]: an upload whose claimed
    filename fails it is answered with the 400 error "File must have a .pdf
    extension"; for one whose filename passes it the handler goes on to
    read the upload, its first I/O operation. *)
Theorem pdf_extension_is_validated env file st fn :
  filename file = Some fn ->
  if ends_with_pdf_ci fn
  then exists evs, trace (snd (run env file st)) = trace st ++ EvRead :: evs
  else fst (run env file st) = Raise not_a_pdf.
Proof.
  intros Hfn. destruct (ends_with_pdf_ci fn) eqn:E.
  - destruct (run_trace env file st) as (evs & cevs & Htr & Hb & _).
    destruct (body_spec env file st) as (evs' & Htr' & _ & Hpass & _).
    rewrite Hb in Htr'. apply app_inv_head in Htr' as <-.
    assert (filename_or_unknown (filename file) = fn) as Hfn'.
    { rewrite Hfn. destruct fn; [discriminate E|done]. }
    rewrite Hfn', has_pdf_extension_ci, E in Hpass.
    destruct Hpass as [evs' ->]. exists (evs' ++ cevs). by rewrite Htr.
  - rewrite run_rejected; [done|]. rewrite Hfn. destruct fn as [|c fn].
    + apply unknown_has_no_pdf_extension.
    + by rewrite has_pdf_extension_ci.
Qed.

(** C9.  An upload with no filename, or an empty one, is handled under the
    name [unknown], which fails the extension check: the answer is the
    same 400 error, and nothing but the warning is left behind. *)
Theorem missing_filename_is_rejected env file st :
  filename file = None \/ filename file = Some [] ->
  filename_or_unknown (filename file) = str "unknown" /\
  run env file st =
    (Raise not_a_pdf,
     {| fs := fs st; log := log st ++ [rejected_warning (str "unknown")];
        trace := trace st; temp_dir := None; temp_path := None |}).
Proof.
  intros H.
  assert (filename_or_unknown (filename file) = str "unknown") as Hfn.
  { by destruct H as [-> | ->]. }
  split; [done|]. rewrite run_rejected; rewrite Hfn; [done|].
  apply unknown_has_no_pdf_extension.
Qed.

(** C5.  A filename that fails the extension check is rejected before any
    staging: the handler performs no I/O operation at all (the upload is
    not read, no directory is made, no file is opened or written), the
    file system is as it was, and the locals name no temporary file. *)
Theorem rejection_precedes_staging env file st :
  ends_with_pdf_ci (filename_or_unknown (filename file)) = false ->
  let st' := snd (run env file st) in
  fst (run env file st) = Raise not_a_pdf /\
  trace st' = trace st /\ fs st' = fs st /\
  temp_dir st' = None /\ temp_path st' = None.
Proof.
  intros H. rewrite <- has_pdf_extension_ci in H.
  cbv zeta. by rewrite run_rejected.
Qed.

(** C10.  The name the upload is staged under has no path separator and is
    neither empty nor [.] nor [..], so the staged path is an entry of the
    directory [tempfile.mkdtemp] made for this request, which did not
    exist before; every file the handler opens or writes is that path,
    and every other file of the file system is left as it was (by the
    handler: the engine is taken to leave the file system as it finds
    it). *)
Theorem staged_file_stays_in_temp_dir env file st :
  let st' := snd (run env file st) in
  let name := safe_name (filename_or_unknown (filename file)) in
  (47 ∉ name) /\ name <> [] /\ name <> str "." /\ name <> str ".." /\
  (forall evs q, trace st' = trace st ++ evs ->
     EvOpen q ∈ evs \/ EvWrite q ∈ evs ->
     temp_dir st' = Some (new_dir env) /\ (new_dir env ∉ dirs (fs st)) /\
     q = os_path_join (new_dir env) name /\ is_direct_child (new_dir env) q) /\
  (forall q, files (fs st') !! q <> files (fs st) !! q ->
     q = os_path_join (new_dir env) name /\ is_direct_child (new_dir env) q).
Proof.
  cbv zeta. split; [apply safe_name_no_slash|]. split; [apply safe_name_nonempty|].
  split; [apply safe_name_not_dots|]. split; [apply safe_name_not_dots|]. split.
  - intros evs' q Htr Hq.
    destruct (run_trace env file st) as (evs & cevs & Htr' & Hb & Hc).
    rewrite Htr' in Htr. apply app_inv_head in Htr as <-.
    destruct (body_spec env file st) as (evs' & Hb' & _ & _ & _ & Hpath & _).
    rewrite Hb in Hb'. apply app_inv_head in Hb' as <-.
    assert (EvOpen q ∈ evs \/ EvWrite q ∈ evs) as Hq'.
    { destruct Hq as [Hq|Hq]; apply elem_of_app in Hq as [Hq|Hq]; auto;
        destruct (Hc _ Hq) as [[? [=]]|[? [=]]]. }
    destruct (Hpath q Hq') as [-> Hd].
    pose proof (body_inv env file st) as Hinv. cbv zeta in Hinv.
    rewrite Hd in Hinv. destruct Hinv as (p & _ & _ & _ & Hfresh & _).
    rewrite run_unfold. cbn [fst snd].
    destruct (cleanup_locals env (snd (try_except (run_body env file) run_except (enter st))))
      as [-> _].
    repeat split; try done. apply staged_path_child.
  - intros q Hq. destruct (decide (q = staged_path env file)) as [->|Hne].
    + split; [done|]. apply staged_path_child.
    + destruct Hq. by apply run_files.
Qed.


(** C3, as amended.  Before the extension is appended, the staged name is
    the original filename when that is not empty and made of allowed
    characters only; otherwise it is the original filename with every
    other character removed, and the generic name [upload.pdf] only when
    no character is left. *)
Theorem sanitized_keeps_allowed_characters (filename : pystr) :
  (filename <> [] -> forallb allowed filename = true ->
   sanitized filename = filename) /\
  (List.filter allowed filename <> [] ->
   sanitized filename = List.filter allowed filename) /\
  (List.filter allowed filename = [] -> sanitized filename = str "upload.pdf").
Proof.
  unfold sanitized. split; [|split].
  - intros Hne Hall. rewrite filter_allowed_id by done. by destruct filename.
  - intros Hne. by destruct (List.filter allowed filename).
  - by intros ->.
Qed.

(** C6.  Whatever the uploaded filename, the name the upload is staged
    under is not empty and ends in [.pdf] under case-insensitive
    comparison: the sanitized name is kept when it already does, and
    [.pdf] is appended to it when it does not. *)
Theorem staged_name_ends_in_pdf (filename : pystr) :
  safe_name filename <> [] /\
  ends_with_pdf_ci (safe_name filename) = true /\
  safe_name filename =
    (if ends_with_pdf_ci (sanitized filename) then sanitized filename
     else sanitized filename ++ str ".pdf").
Proof.
  split; [apply safe_name_nonempty|]. split; [apply safe_name_ci|].
  unfold safe_name. fold (has_pdf_extension (sanitized filename)).
  rewrite has_pdf_extension_ci. by destruct (ends_with_pdf_ci _).
Qed.

(** C7.  A run that returns a response returns one of status 200 and
    media type [application/json] whose body is the engine's result as
    indented JSON with the characters beyond ASCII kept: the body is the
    text of the result's lines, one item to a line and two spaces of
    indentation for each level of nesting ([indented_lines], which [quoted]
    makes keep what is not ASCII), and it is JSON that reads back as the
    result. *)
Theorem success_is_indented_json env file st resp :
  fst (run env file st) = Ok resp ->
  exists v,
    page_index_main env (staged_path env file) (staged_fs env file (fs st)) = Ok v /\
    content resp = unlines (indented_lines 0 v) /\
    (pyval_wf v = true -> json_loads (content resp) = Some v) /\
    media_type resp = str "application/json" /\
    status_code resp = 200%Z.
Proof.
  intros H. destruct (run_ok env file st resp H) as (v & Hv & ->).
  exists v. split; [done|]. split.
  - cbn [content mkResponse]. unfold json_dumps. by rewrite iterencode_layout.
  - split; [|done]. intros Hwf. by apply json_loads_dumps.
Qed.

(** C8.  The body of a response parses back, by [json.loads], to the very
    value the engine returned: nesting, order and numbers are the same.
    (The value is one Python can hold: the keys of each dictionary in it
    are distinct.) *)
Theorem response_body_round_trips env file st resp :
  fst (run env file st) = Ok resp ->
  exists v,
    page_index_main env (staged_path env file) (staged_fs env file (fs st)) = Ok v /\
    (pyval_wf v = true -> json_loads (content resp) = Some v).
Proof.
  intros H. destruct (run_ok env file st resp H) as (v & Hv & ->).
  exists v. split; [done|]. intros Hwf. by apply json_loads_dumps.
Qed.

(** ** The ways through [run] *)

Ltac ocase :=
  match goal with
  | |- context [has_pdf_extension ?x] => destruct (has_pdf_extension x) eqn:?
  | |- context [match read_fault ?env with _ => _ end] => destruct (read_fault env) eqn:?
  | |- context [match mkdtemp_fault ?env with _ => _ end] => destruct (mkdtemp_fault env) eqn:?
  | |- context [match open_fault ?env with _ => _ end] => destruct (open_fault env) eqn:?
  | |- context [match write_fault ?env with _ => _ end] => destruct (write_fault env) eqn:?
  | |- context [unused ?f ?d] => destruct (unused f d) eqn:?
  | |- context [match page_index_main ?env ?p ?f with _ => _ end] =>
      destruct (page_index_main env p f) eqn:?
  | |- context [match dumps_fault ?env ?v with _ => _ end] =>
      destruct (dumps_fault env v) eqn:?
  | |- context [existsb is_surrogate ?x] => destruct (existsb is_surrogate x) eqn:?
  end.

Lemma run_body_outcome env file st :
  let o := outcome_of env file (fs st) in
  run_body env file (enter st) = (body_result o, body_state env file st o).
Proof.
  cbv zeta.
  unfold body_state, outcome_of, serialization_fault, staged_fs, staged_path, new_dir.
  unfold_M. cbn beta iota zeta. msimpl.
  repeat (ocase; msimpl; rewrite ?insert_insert_eq).
  all: cbn [body_result body_log body_trace body_fs has_staged negb].
  all: unfold full_trace, staged_fs, staged_path, new_dir, not_a_pdf, rejected_warning,
         received_info, started_info, elapsed_info, finished_info.
  all: rewrite <- ?app_assoc; cbn [app].
  all: rewrite ?app_nil_r.
  all: try match goal with H : page_index_main _ _ _ = _ |- _ => rewrite ?H end.
  all: try reflexivity.
Qed.

Lemma tried_outcome env file st :
  let o := outcome_of env file (fs st) in
  try_except (run_body env file) run_except (enter st) =
    (tried_result o, tried_state env file st o).
Proof.
  cbv zeta. unfold try_except. rewrite run_body_outcome.
  unfold tried_result, tried_state, except_log, raised, body_state.
  destruct (body_result _) as [resp|e]; [by rewrite app_nil_r|].
  unfold run_except, reraised, is_caught.
  destruct (is_HTTPException e), (is_Exception e); cbn [negb andb].
  all: unfold_M; msimpl; rewrite <- ?app_assoc, ?app_nil_r; reflexivity.
Qed.

Lemma cleanup_staged env st d p :
  temp_dir st = Some d -> temp_path st = Some p -> d <> [] -> p <> [] ->
  d ∈ dirs (fs st) ->
  (forall q, q ∈ dirs (fs st) -> ~ is_under d q) ->
  (forall q, is_Some (files (fs st) !! q) -> is_under d q -> q = p) ->
  cleanup env st = (Ok tt, cleaned env d p st).
Proof using Type.
  clear isalnum_ascii lower_ascii lower_high isalnum lower_piece.
  destruct st as [f l t td tp]. msimpl.
  intros -> -> Hdne Hpne Hin Hdirs Hfiles.
  unfold cleaned, after_cleanup. unfold_M. msimpl.
  repeat (mcase; msimpl); try done.
  all: rewrite <- ?app_assoc, ?app_nil_r; cbn [app]; try reflexivity.
  all: (by destruct (dir_empty_after_unlink f d p)) ||
       (by destruct (dir_empty_without_file f d p)).
Qed.

(** [run], flattened: the way through the body decides the result, and
    the [finally] clause works on the state only. *)
Lemma run_outcome env file st :
  let o := outcome_of env file (fs st) in
  let st1 := tried_state env file st o in
  run env file st =
    (tried_result o,
     if has_staged o then cleaned env (new_dir env) (staged_path env file) st1
     else st1).
Proof.
  cbv zeta. rewrite run_unfold. cbv zeta.
  pose proof (body_inv env file st) as Hinv. cbv zeta in Hinv.
  rewrite tried_outcome in *. cbn [fst snd] in *.
  destruct (has_staged _) eqn:E.
  - unfold tried_state in Hinv at 1. cbn [temp_dir] in Hinv. rewrite E in Hinv.
    destruct Hinv as (p & Ep & Hd & Hp & _ & Hin & Hdirs & Hfiles).
    assert (p = staged_path env file) as ->.
    { unfold tried_state in Ep. cbn [temp_path] in Ep. rewrite E in Ep. congruence. }
    rewrite (cleanup_staged env _ (new_dir env) (staged_path env file)); try done.
    unfold tried_state. cbn [temp_dir]. by rewrite E.
  - rewrite cleanup_skip; [done|]. unfold tried_state. cbn [temp_dir]. by rewrite E.
Qed.

Lemma outcome_spec env file f :
  let fn := filename_or_unknown (filename file) in
  let staging :=
    has_pdf_extension fn = true /\ read_fault env = None /\
    mkdtemp_fault env = None /\ unused f (new_dir env) = true in
  match outcome_of env file f with
  | Rejected => has_pdf_extension fn = false
  | ReadFailed e => has_pdf_extension fn = true /\ read_fault env = Some e
  | MkdtempFailed e =>
      has_pdf_extension fn = true /\ read_fault env = None /\
      (mkdtemp_fault env = Some e \/
       (mkdtemp_fault env = None /\ unused f (new_dir env) = false /\
        e = OSError (str "File exists")))
  | OpenFailed e => staging /\ open_fault env = Some e
  | WriteFailed e => staging /\ open_fault env = None /\ write_fault env = Some e
  | EngineRaised e =>
      staging /\ open_fault env = None /\ write_fault env = None /\
      page_index_main env (staged_path env file) (staged_fs env file f) = Raise e
  | SerializationFailed v e =>
      staging /\ open_fault env = None /\ write_fault env = None /\
      page_index_main env (staged_path env file) (staged_fs env file f) = Ok v /\
      serialization_fault env v = Some e
  | Returned v =>
      staging /\ open_fault env = None /\ write_fault env = None /\
      page_index_main env (staged_path env file) (staged_fs env file f) = Ok v /\
      serialization_fault env v = None
  end.
Proof.
  cbv zeta. unfold outcome_of.
  destruct (has_pdf_extension _); cbn [negb]; [|done].
  destruct (read_fault env); [done|].
  destruct (mkdtemp_fault env); [by auto|].
  destruct (unused _ _); cbn [negb]; [|by auto 10].
  destruct (open_fault env); [done|].
  destruct (write_fault env); [done|].
  destruct (page_index_main _ _ _) as [v|e]; [|done].
  by destruct (serialization_fault env v) eqn:E.
Qed.

Lemma run_log env file st :
  let o := outcome_of env file (fs st) in
  exists tail,
    log (snd (run env file st)) = log st ++ body_log env file o ++ except_log o ++ tail /\
    (tail = [] \/ exists m, tail = [cleanup_warning m]).
Proof.
  cbv zeta. rewrite run_unfold. cbv zeta. rewrite tried_outcome. cbn [fst snd].
  destruct (cleanup_log env (tried_state env file st (outcome_of env file (fs st))))
    as [->|[m ->]]; unfold tried_state; cbn [log].
  - exists []. rewrite app_nil_r. auto.
  - exists [cleanup_warning m]. rewrite <- !app_assoc. eauto.
Qed.

Lemma run_trace_outcome env file st :
  let o := outcome_of env file (fs st) in
  exists cevs,
    trace (snd (run env file st)) = trace st ++ body_trace env file (fs st) o ++ cevs /\
    forall ev, ev ∈ cevs ->
      has_staged o = true /\
      (ev = EvUnlink (staged_path env file) \/ ev = EvRmdir (new_dir env)).
Proof.
  cbv zeta. rewrite run_unfold. cbv zeta. rewrite tried_outcome. cbn [fst snd].
  destruct (cleanup_trace env (tried_state env file st (outcome_of env file (fs st))))
    as (cevs & -> & Hc).
  exists cevs. unfold tried_state at 1. cbn [trace]. rewrite <- app_assoc.
  split; [done|]. intros ev Hev. unfold tried_state in Hc. cbn [temp_dir temp_path] in Hc.
  destruct (has_staged _).
  - split; [done|]. destruct (Hc ev Hev) as [(p & -> & [= <-])|(d & -> & [= <-])]; auto.
  - destruct (Hc ev Hev) as [(p & _ & [=])|(d & _ & [=])].
Qed.

Lemma serialization_fault_exception env v e :
  serialization_fault env v = Some e -> exists m, e = Exception m.
Proof.
  unfold serialization_fault. destruct (dumps_fault env v); [intros [= <-]; eauto|].
  destruct (existsb _ _); [intros [= <-]; eauto|done].
Qed.

Lemma serialization_fault_None env v :
  serialization_fault env v = None ->
  dumps_fault env v = None /\ existsb is_surrogate (json_dumps v) = false.
Proof.
  unfold serialization_fault. destruct (dumps_fault env v); [done|].
  by destruct (existsb _ _).
Qed.

Lemma reraised_not_caught e : is_caught (reraised e) = false.
Proof. unfold reraised. destruct (is_caught e) eqn:E; [done|exact E]. Qed.

(** ** Further properties of [run] *)

(** What [run] raises is an [HTTPException] or no [Exception] at all: an
    [OSError] or any other [Exception] never leaves the handler, whether
    it arose in the [try] statement or in the [finally] clause. *)
Theorem run_raises_http_or_base env file st e :
  fst (run env file st) = Raise e ->
  is_HTTPException e = true \/ is_Exception e = false.
Proof.
  rewrite run_outcome. cbn [fst]. unfold tried_result.
  destruct (body_result _) as [resp|e0]; [done|]. intros [= <-].
  pose proof (reraised_not_caught e0) as H. unfold is_caught in H.
  destruct (is_HTTPException (reraised e0)), (is_Exception (reraised e0)); auto.
Qed.

(** When no collaborator raises an [HTTPException] of its own, the status
    of the one [run] raises is 400 with the message of line 55, for a
    filename that fails the check, or 500, for one that passes it. *)
Theorem error_status_is_400_or_500 env file st sc detail :
  (forall e, read_fault env = Some e -> is_HTTPException e = false) ->
  (forall e, mkdtemp_fault env = Some e -> is_HTTPException e = false) ->
  (forall e, open_fault env = Some e -> is_HTTPException e = false) ->
  (forall e, write_fault env = Some e -> is_HTTPException e = false) ->
  (forall p f e, page_index_main env p f = Raise e -> is_HTTPException e = false) ->
  fst (run env file st) = Raise (HTTPException sc detail) ->
  let fn := filename_or_unknown (filename file) in
  (sc = 400%Z /\ detail = str "File must have a .pdf extension" /\
   has_pdf_extension fn = false) \/
  (sc = 500%Z /\ has_pdf_extension fn = true).
Proof.
  intros Hread Hmk Hopen Hwrite Hengine. rewrite run_outcome. cbn [fst].
  pose proof (outcome_spec env file (fs st)) as Ho. cbv zeta in *.
  unfold tried_result.
  destruct (outcome_of env file (fs st)) as [|e|e|e|e|e|v e|v]; cbn [body_result].
  1: { intros [= <- <-]. by left. }
  7: done.
  all: assert (is_HTTPException e = false /\
               has_pdf_extension (filename_or_unknown (filename file)) = true)
         as [Hh Hpdf]
         by (try (destruct Ho as (? & _ & _ & _ & [m ->]%serialization_fault_exception));
             intuition (subst; eauto)).
  all: unfold reraised, is_caught; rewrite Hh; cbn [negb andb].
  all: destruct (is_Exception e); [intros [= <- _]; by right|].
  all: intros [= ->]; discriminate Hh.
Qed.

(** [run] returns a response exactly when the filename passes the check,
    each of the five operations of the body succeeds, the engine returns
    a value, [json.dumps] does not raise for it and the body has no
    surrogate in it, which UTF-8 could not encode: the response is then
    that value serialized, whatever becomes of the removals in the
    [finally] clause. *)
Theorem response_iff_all_steps_succeed env file st resp :
  fst (run env file st) = Ok resp <->
  has_pdf_extension (filename_or_unknown (filename file)) = true /\
  read_fault env = None /\ mkdtemp_fault env = None /\
  unused (fs st) (new_dir env) = true /\
  open_fault env = None /\ write_fault env = None /\
  exists v,
    page_index_main env (staged_path env file) (staged_fs env file (fs st)) = Ok v /\
    dumps_fault env v = None /\
    existsb is_surrogate (json_dumps v) = false /\
    resp = mkResponse (json_dumps v) (str "application/json").
Proof.
  rewrite run_outcome. cbn [fst].
  pose proof (outcome_spec env file (fs st)) as Ho. cbv zeta in Ho.
  unfold tried_result. split.
  - destruct (outcome_of env file (fs st)) as [|e|e|e|e|e|v e|v]; cbn [body_result];
      try discriminate.
    intros [= <-]. destruct Ho as ((? & ? & ? & ?) & ? & ? & ? & Hs).
    apply serialization_fault_None in Hs as [? ?]. eauto 12.
  - intros (Hpdf & Hr & Hm & Hu & Ho' & Hw & v & Hv & Hd & Hs & ->).
    unfold outcome_of, serialization_fault.
    rewrite Hpdf, Hr, Hm, Hu, Ho', Hw, Hv, Hd, Hs. reflexivity.
Qed.

Ltac elems H :=
  repeat first [apply elem_of_app in H as [H|H] | apply elem_of_cons in H as [H|H]];
  try discriminate H; try (by apply elem_of_nil in H).

Lemma body_trace_prefix env file f o :
  body_trace env file f o `prefix_of` full_trace env file f.
Proof. destruct o; cbn [body_trace]; unfold full_trace; by eexists. Qed.

Lemma body_trace_no_cleanup env file f o ev :
  ev ∈ body_trace env file f o ->
  (forall q, ev <> EvUnlink q) /\ (forall d, ev <> EvRmdir d).
Proof.
  intros H. pose proof (elem_of_prefix _ _ _ H (body_trace_prefix env file f o)) as H'.
  unfold full_trace in H'. elems H'; by subst.
Qed.

Lemma body_trace_open env file f o :
  EvOpen (staged_path env file) ∈ body_trace env file f o <-> has_staged o = true.
Proof.
  destruct o; cbn [body_trace has_staged]; unfold full_trace; split; try done.
  all: try (intros H; by elems H).
  all: intros _; rewrite !elem_of_cons; auto.
Qed.

Lemma cleaned_trace env d p st :
  exists cevs,
    trace (cleaned env d p st) = trace st ++ cevs /\
    (cevs = [EvUnlink p] \/ cevs = [EvUnlink p; EvRmdir d] \/ cevs = [EvRmdir d]).
Proof. unfold cleaned. repeat case_match; cbn [after_cleanup trace]; eauto. Qed.

(** The engine's call, seen in the trace of a request. *)
Lemma engine_event env file st evs q r :
  trace (snd (run env file st)) = trace st ++ evs ->
  EvPageIndex q r ∈ evs ->
  q = staged_path env file /\
  r = page_index_main env q (staged_fs env file (fs st)) /\
  match r with
  | Ok v =>
      outcome_of env file (fs st) =
        match serialization_fault env v with
        | Some e => SerializationFailed v e
        | None => Returned v
        end
  | Raise e => outcome_of env file (fs st) = EngineRaised e
  end /\
  exists cevs, evs = full_trace env file (fs st) ++ cevs /\
    forall ev, ev ∈ cevs ->
      ev = EvUnlink (staged_path env file) \/ ev = EvRmdir (new_dir env).
Proof.
  intros Htr Hev.
  destruct (run_trace_outcome env file st) as (cevs & Htr' & Hc). cbv zeta in *.
  rewrite Htr' in Htr. apply app_inv_head in Htr as <-.
  pose proof (outcome_spec env file (fs st)) as Ho. cbv zeta in Ho.
  assert (EvPageIndex q r ∈ body_trace env file (fs st) (outcome_of env file (fs st)))
    as Hb.
  { apply elem_of_app in Hev as [Hev|Hev]; [done|].
    destruct (Hc _ Hev) as [_ [[=]|[=]]]. }
  destruct (outcome_of env file (fs st)) as [|e|e|e|e|e|v e|v]; cbn [body_trace] in *;
    try (by elems Hb).
  1: destruct Ho as (_ & _ & _ & Hengine).
  2-3: destruct Ho as (_ & _ & _ & Hengine & Hs).
  all: unfold full_trace in Hb; elems Hb; injection Hb as -> ->.
  all: rewrite Hengine; repeat split; try done; try by rewrite Hs.
  all: exists cevs; split; [done|]; intros ev H; by destruct (Hc ev H).
Qed.

(** A request that calls the engine has logged its receipt and the start
    of processing before the call, and logs the elapsed time after it,
    whether the engine returned or raised (the inner [finally] clause of
    lines 81-83).  What follows when the engine returned is the record of
    the request's end and then, if the serialization of lines 86-87
    raised, the record of its failure; when the engine raised, it is the
    record of the failure if the clause of line 91 caught the exception.
    The warning of a failed removal, if any, comes last. *)
Theorem elapsed_time_is_logged env file st evs q r :
  trace (snd (run env file st)) = trace st ++ evs ->
  EvPageIndex q r ∈ evs ->
  exists tail,
    log (snd (run env file st)) =
      log st ++ [received_info file; started_info file; elapsed_info env] ++
      match r with
      | Ok v =>
          finished_info file ::
          match serialization_fault env v with
          | Some e => [failed_error e]
          | None => []
          end
      | Raise e => if is_caught e then [failed_error e] else []
      end ++ tail /\
    (tail = [] \/ exists m, tail = [cleanup_warning m]).
Proof.
  intros Htr Hev.
  destruct (engine_event env file st evs q r Htr Hev) as (_ & _ & Ho & _).
  destruct (run_log env file st) as (tail & Hlog & Htail). cbv zeta in Hlog.
  exists tail. split; [|done]. rewrite Hlog.
  destruct r as [v|e]; rewrite Ho; [|reflexivity].
  destruct (serialization_fault env v) as [e|] eqn:Hs; [|reflexivity].
  destruct (serialization_fault_exception env v e Hs) as [m ->]. reflexivity.
Qed.

(** The engine is called at most once, after the upload has been read and
    staged in full and before anything is removed: on the staged path, in
    a file system where the new directory exists and that path holds the
    bytes of the upload. *)
Theorem engine_runs_on_staged_upload env file st evs q r :
  trace (snd (run env file st)) = trace st ++ evs ->
  EvPageIndex q r ∈ evs ->
  let f := staged_fs env file (fs st) in
  q = staged_path env file /\
  r = page_index_main env q f /\
  files f !! q = Some (body file) /\
  new_dir env ∈ dirs f /\
  exists cevs,
    evs = [EvRead; EvMkdtemp; EvOpen q; EvWrite q; EvPageIndex q r] ++ cevs /\
    forall ev, ev ∈ cevs -> ev = EvUnlink q \/ ev = EvRmdir (new_dir env).
Proof using Type.
  intros Htr Hev.
  destruct (engine_event env file st evs q r Htr Hev) as (-> & -> & _ & cevs & -> & Hc).
  cbv zeta. split; [done|]. split; [done|].
  split; [apply lookup_insert_eq|].
  split; [apply elem_of_union_l, elem_of_singleton; reflexivity|].
  exists cevs. split; [reflexivity|done].
Qed.

(** The operations of a request come in one order: an initial part of
    read, mkdtemp, open, write, engine call; then, if and only if the
    request got as far as opening the staged file, the removals, which
    are the unlink alone, the unlink and the rmdir, or the rmdir alone. *)
Theorem operations_are_ordered env file st :
  let p := staged_path env file in
  let d := new_dir env in
  exists evs cevs,
    trace (snd (run env file st)) = trace st ++ evs ++ cevs /\
    evs `prefix_of` full_trace env file (fs st) /\
    (((EvOpen p ∉ evs) /\ cevs = []) \/
     (EvOpen p ∈ evs /\
      (cevs = [EvUnlink p] \/ cevs = [EvUnlink p; EvRmdir d] \/ cevs = [EvRmdir d]))).
Proof.
  cbv zeta. rewrite run_outcome. cbn [snd].
  exists (body_trace env file (fs st) (outcome_of env file (fs st))).
  destruct (has_staged _) eqn:E.
  - destruct (cleaned_trace env (new_dir env) (staged_path env file)
                (tried_state env file st (outcome_of env file (fs st))))
      as (cevs & -> & Hshape).
    exists cevs. unfold tried_state. cbn [trace]. rewrite <- app_assoc.
    split; [done|]. split; [apply body_trace_prefix|]. right.
    split; [by apply body_trace_open|done].
  - exists []. unfold tried_state. cbn [trace]. rewrite app_nil_r.
    split; [done|]. split; [apply body_trace_prefix|]. left.
    split; [|done]. rewrite body_trace_open, E. done.
Qed.

(** When [os.unlink] fails, [os.rmdir] is not attempted: the staged file
    and the directory both stay, and the warning of line 101 is the last
    record of the log. *)
Theorem failed_unlink_skips_rmdir env file st m evs q :
  unlink_fault env = Some m ->
  trace (snd (run env file st)) = trace st ++ evs ->
  EvUnlink q ∈ evs ->
  let st' := snd (run env file st) in
  q = staged_path env file /\
  (forall d, EvRmdir d ∉ evs) /\
  new_dir env ∈ dirs (fs st') /\
  is_Some (files (fs st') !! q) /\
  exists recs, log st' = log st ++ recs ++ [cleanup_warning m].
Proof using Type.
  intros Hu Htr Hev. cbv zeta. rewrite run_outcome in *. cbn [snd] in *.
  set (o := outcome_of env file (fs st)) in *.
  destruct (has_staged o) eqn:E.
  2: { unfold tried_state in Htr. cbn [trace] in Htr. apply app_inv_head in Htr as <-.
       by destruct (proj1 (body_trace_no_cleanup _ _ _ _ _ Hev) q). }
  unfold cleaned in *. rewrite Hu in *.
  destruct (bool_decide_reflect
              (is_Some (files (fs (tried_state env file st o)) !! staged_path env file)))
    as [Hfile|Hfile].
  - unfold after_cleanup in *. cbn [trace fs log] in *.
    unfold tried_state in Htr. cbn [trace] in Htr.
    rewrite <- app_assoc in Htr. apply app_inv_head in Htr as <-.
    assert (q = staged_path env file) as ->.
    { apply elem_of_app in Hev as [Hev|Hev].
      - by destruct (proj1 (body_trace_no_cleanup _ _ _ _ _ Hev) q).
      - elems Hev. by injection Hev. }
    split; [done|]. split.
    { intros d Hd. apply elem_of_app in Hd as [Hd|Hd].
      - by destruct (proj2 (body_trace_no_cleanup _ _ _ _ _ Hd) d).
      - elems Hd. }
    split.
    { unfold tried_state. cbn [fs].
      destruct o; try discriminate E; cbn [body_fs staged_fs dirs];
        apply elem_of_union_l, elem_of_singleton; reflexivity. }
    split; [done|].
    unfold tried_state. cbn [log]. exists (body_log env file o ++ except_log o).
    by rewrite <- !app_assoc.
  - assert (trace st ++ evs =
            trace (tried_state env file st o) ++ [EvRmdir (new_dir env)]) as Htr'.
    { rewrite <- Htr. by destruct (rmdir_fault env). }
    unfold tried_state in Htr'. cbn [trace] in Htr'.
    rewrite <- app_assoc in Htr'. apply app_inv_head in Htr' as ->.
    apply elem_of_app in Hev as [Hev|Hev].
    + by destruct (proj1 (body_trace_no_cleanup _ _ _ _ _ Hev) q).
    + elems Hev.
Qed.

(** A record at level ERROR is written by the clause of line 91 alone:
    it is [Request failed] for an exception [e], and the request is then
    answered with a 500 whose detail is [str(e)]. *)
Theorem error_record_matches_500 env file st recs r :
  log (snd (run env file st)) = log st ++ recs ->
  r ∈ recs -> levelname r = ERROR ->
  exists e, r = failed_error e /\
    fst (run env file st) = Raise (HTTPException 500 (exn_str e)).
Proof.
  intros Hlog Hr Hlevel.
  destruct (run_log env file st) as (tail & Hlog' & Htail). cbv zeta in Hlog'.
  rewrite Hlog' in Hlog. apply app_inv_head in Hlog as <-.
  rewrite run_outcome. cbn [fst]. unfold tried_result, except_log, raised in *.
  apply elem_of_app in Hr as [Hr|Hr].
  { destruct (outcome_of env file (fs st)); cbn [body_log] in Hr; elems Hr;
      subst r; discriminate Hlevel. }
  apply elem_of_app in Hr as [Hr|Hr].
  - destruct (body_result _) as [resp|e]; [by elems Hr|].
    unfold reraised. destruct (is_caught e); elems Hr. eauto.
  - destruct Htail as [->|[m ->]]; elems Hr. subst r. discriminate Hlevel.
Qed.

Lemma os_path_join_suffix a b : exists x, os_path_join a b = x ++ b.
Proof.
  unfold os_path_join. repeat case_match.
  - by exists [].
  - by exists a.
  - exists (a ++ [47]). by rewrite <- app_assoc.
Qed.

Lemma endswith_slash_app (x name : pystr) :
  name <> [] -> 47 ∉ name -> endswith (x ++ name) [47] = false.
Proof.
  intros Hne Hs. destruct (endswith (x ++ name) [47]) eqn:E; [|done].
  apply endswith_suffix in E as [k E].
  assert (last (x ++ name) = Some 47) as Hl by (rewrite E; apply last_snoc).
  rewrite last_app in Hl. destruct (last name) as [c|] eqn:El.
  - injection Hl as ->. by apply last_Some_elem_of in El.
  - by apply last_None in El.
Qed.

Lemma new_dir_no_trailing_slash env :
  47 ∉ mkdtemp_random env ->
  new_dir env <> [] /\ endswith (new_dir env) [47] = false.
Proof.
  intros Hr. unfold new_dir.
  split; [by apply os_path_join_nonempty|].
  destruct (os_path_join_suffix (gettempdir env) (str "pageindex_" ++ mkdtemp_random env))
    as [x ->].
  apply endswith_slash_app; [done|].
  rewrite not_elem_of_app. split; [|done].
  rewrite list_elem_of_In. vm_compute. intuition discriminate.
Qed.

Lemma staged_path_under env file :
  47 ∉ mkdtemp_random env -> is_under (new_dir env) (staged_path env file).
Proof.
  intros Hr. destruct (new_dir_no_trailing_slash env Hr) as [Hne Hend].
  unfold staged_path, is_under.
  destruct (os_path_join_child (new_dir env)
              (safe_name (filename_or_unknown (filename file)))) as [->|[[H|H] _]].
  - apply safe_name_no_slash.
  - eexists. by rewrite <- app_assoc.
  - done.
  - by rewrite H in Hend.
Qed.

Lemma staged_path_fresh env file f :
  47 ∉ mkdtemp_random env -> unused f (new_dir env) = true ->
  files f !! staged_path env file = None.
Proof.
  intros Hr (_ & _ & _ & H)%unused_spec. apply eq_None_not_Some. intros Hs.
  by apply (H _ Hs), staged_path_under.
Qed.

Lemma difference_union_fresh (d : pystr) (X : gset pystr) :
  d ∉ X -> ({[d]} ∪ X) ∖ {[d]} = X.
Proof using Type.
  clear isalnum_ascii lower_ascii lower_high isalnum lower_piece. set_solver.
Qed.

Lemma caught_reraised e :
  is_Exception e = true -> is_HTTPException e = false ->
  is_caught e = true /\ reraised e = HTTPException 500 (exn_str e).
Proof. unfold reraised, is_caught. by intros -> ->. Qed.

(** For an engine that only reads the file system, which is what an
    [Env] holds: when neither [os.unlink] nor [os.rmdir] fails (and the
    random part of the directory's name has no separator in it, as the
    names [tempfile] draws have none), what the handler itself put on the
    disk it takes off again, and a request leaves the file system exactly
    as it found it, whichever way it ends. *)
Theorem file_system_is_restored env file st :
  unlink_fault env = None -> rmdir_fault env = None ->
  47 ∉ mkdtemp_random env ->
  fs (snd (run env file st)) = fs st.
Proof.
  intros Hu Hr Hrnd. rewrite run_outcome. cbn [snd].
  pose proof (outcome_spec env file (fs st)) as Ho. cbv zeta in Ho.
  unfold cleaned, after_cleanup, tried_state. rewrite Hu, Hr. cbn [fs].
  destruct (outcome_of env file (fs st)) as [|e|e|e|e|e|v e|v];
    cbn [has_staged body_fs staged_fs files dirs] in *; try done.
  all: destruct Ho as ((_ & _ & _ & Hunused) & _).
  all: pose proof (staged_path_fresh env file (fs st) Hrnd Hunused) as Hp.
  all: apply unused_spec in Hunused as (Hd & _).
  all: rewrite ?lookup_insert_eq, ?Hp.
  all: try rewrite (bool_decide_true (is_Some (Some _))) by eauto.
  all: try rewrite (bool_decide_false (is_Some None)) by (by intros [? ?]).
  all: cbn [fs]; rewrite ?delete_insert_id by done.
  all: rewrite difference_union_fresh by done; by destruct (fs st).
Qed.

(** For an engine that only reads the file system, which is what an
    [Env] holds: a request removes no directory that was there before it,
    and the only directory it may leave behind is the one the handler
    made. *)
Theorem directories_are_kept env file st :
  let st' := snd (run env file st) in
  dirs (fs st) ⊆ dirs (fs st') /\
  dirs (fs st') ⊆ {[new_dir env]} ∪ dirs (fs st).
Proof using Type.
  clear isalnum_ascii lower_ascii lower_high.
  cbv zeta. rewrite run_outcome. cbn [snd].
  pose proof (outcome_spec env file (fs st)) as Ho. cbv zeta in Ho.
  unfold cleaned, after_cleanup, tried_state. cbn [fs].
  destruct (outcome_of env file (fs st)) as [|e|e|e|e|e|v e|v];
    cbn [has_staged body_fs staged_fs files dirs] in *; try set_solver.
  all: destruct Ho as ((_ & _ & _ & (Hd & _)%unused_spec) & _).
  all: repeat case_match; cbn [fs dirs]; set_solver.
Qed.

(** When reading the upload fails, the failure is logged and answered with
    a 500 before anything is staged: the receipt of the request is not
    logged, no directory is made, and the [finally] clause has nothing to
    remove. *)
Theorem read_failure_stops_before_staging env file st e :
  has_pdf_extension (filename_or_unknown (filename file)) = true ->
  read_fault env = Some e ->
  is_Exception e = true -> is_HTTPException e = false ->
  run env file st =
    (Raise (HTTPException 500 (exn_str e)),
     {| fs := fs st; log := log st ++ [failed_error e];
        trace := trace st ++ [EvRead]; temp_dir := None; temp_path := None |}).
Proof.
  intros Hpdf Hread He Hh. rewrite run_outcome.
  assert (outcome_of env file (fs st) = ReadFailed e) as ->
    by (unfold outcome_of; by rewrite Hpdf, Hread).
  destruct (caught_reraised e He Hh) as [Hc Hre].
  unfold tried_result, tried_state, except_log, raised.
  cbn [has_staged body_result body_log body_trace body_fs]. by rewrite Hc, Hre.
Qed.

(** When [tempfile.mkdtemp] fails, [temp_dir] is still [None]: the
    failure is logged and answered with a 500, and the [finally] clause
    touches nothing. *)
Theorem mkdtemp_failure_leaves_nothing env file st e :
  has_pdf_extension (filename_or_unknown (filename file)) = true ->
  read_fault env = None -> mkdtemp_fault env = Some e ->
  is_Exception e = true -> is_HTTPException e = false ->
  run env file st =
    (Raise (HTTPException 500 (exn_str e)),
     {| fs := fs st; log := log st ++ [received_info file; failed_error e];
        trace := trace st ++ [EvRead; EvMkdtemp];
        temp_dir := None; temp_path := None |}).
Proof.
  intros Hpdf Hread Hmk He Hh. rewrite run_outcome.
  assert (outcome_of env file (fs st) = MkdtempFailed e) as ->
    by (unfold outcome_of; by rewrite Hpdf, Hread, Hmk).
  destruct (caught_reraised e He Hh) as [Hc Hre].
  unfold tried_result, tried_state, except_log, raised.
  cbn [has_staged body_result body_log body_trace body_fs]. by rewrite Hc, Hre.
Qed.

(** When opening the staged file fails, no file has been created: the
    [finally] clause finds none at [temp_path], skips [os.unlink] and
    goes straight to [os.rmdir]. *)
Theorem open_failure_removes_directory env file st e :
  has_pdf_extension (filename_or_unknown (filename file)) = true ->
  read_fault env = None -> mkdtemp_fault env = None ->
  unused (fs st) (new_dir env) = true -> 47 ∉ mkdtemp_random env ->
  open_fault env = Some e ->
  is_Exception e = true -> is_HTTPException e = false ->
  let st' := snd (run env file st) in
  fst (run env file st) = Raise (HTTPException 500 (exn_str e)) /\
  trace st' =
    trace st ++ [EvRead; EvMkdtemp; EvOpen (staged_path env file);
                 EvRmdir (new_dir env)] /\
  files (fs st') = files (fs st).
Proof.
  intros Hpdf Hread Hmk Hun Hrnd Hopen He Hh. cbv zeta. rewrite run_outcome.
  assert (outcome_of env file (fs st) = OpenFailed e) as ->
    by (unfold outcome_of; by rewrite Hpdf, Hread, Hmk, Hun, Hopen).
  destruct (caught_reraised e He Hh) as [Hc Hre].
  unfold tried_result, cleaned, after_cleanup, tried_state.
  cbn [has_staged body_result body_trace body_fs fst snd fs files trace].
  rewrite Hre, (staged_path_fresh env file (fs st) Hrnd Hun).
  rewrite (bool_decide_false (is_Some None)) by (by intros [? ?]).
  split; [done|]. destruct (rmdir_fault env); cbn [trace fs files];
    by rewrite <- app_assoc.
Qed.

(** When writing the staged file fails, the file exists already, empty or
    partly written: the [finally] clause unlinks it before it removes the
    directory, and the engine is never called. *)
Theorem write_failure_removes_partial_file env file st e :
  has_pdf_extension (filename_or_unknown (filename file)) = true ->
  read_fault env = None -> mkdtemp_fault env = None ->
  unused (fs st) (new_dir env) = true ->
  open_fault env = None -> write_fault env = Some e ->
  is_Exception e = true -> is_HTTPException e = false ->
  unlink_fault env = None ->
  let st' := snd (run env file st) in
  let p := staged_path env file in
  fst (run env file st) = Raise (HTTPException 500 (exn_str e)) /\
  trace st' =
    trace st ++ [EvRead; EvMkdtemp; EvOpen p; EvWrite p; EvUnlink p;
                 EvRmdir (new_dir env)] /\
  files (fs st') !! p = None.
Proof.
  intros Hpdf Hread Hmk Hun Hopen Hwrite He Hh Hunlink. cbv zeta. rewrite run_outcome.
  assert (outcome_of env file (fs st) = WriteFailed e) as ->
    by (unfold outcome_of; by rewrite Hpdf, Hread, Hmk, Hun, Hopen, Hwrite).
  destruct (caught_reraised e He Hh) as [Hc Hre].
  unfold tried_result, cleaned, after_cleanup, tried_state.
  cbn [has_staged body_result body_trace body_fs fst snd fs files trace].
  rewrite Hre, Hunlink, lookup_insert_eq.
  rewrite (bool_decide_true (is_Some (Some _))) by eauto.
  split; [done|]. destruct (rmdir_fault env); cbn [trace fs files];
    rewrite <- app_assoc; (split; [done|]); apply lookup_delete_eq.
Qed.

Lemma filter_allowed_Forall (s : pystr) :
  Forall (fun c => allowed c = true) (List.filter allowed s).
Proof.
  induction s as [|c s IH]; simpl; [constructor|].
  destruct (allowed c) eqn:E; [by constructor|done].
Qed.

Lemma literal_allowed (s : pystr) :
  forallb (fun c => (c <? 128) && (ascii_isalnum c || bool_decide (c ∈ str "._- "))) s
    = true ->
  Forall (fun c => allowed c = true) s.
Proof.
  induction s as [|c s IH]; simpl; [constructor|].
  rewrite !andb_true_iff. intros [[Hc Ha] Hs]. constructor; [|by apply IH].
  unfold allowed. rewrite isalnum_ascii; [done|]. by apply N.ltb_lt.
Qed.

Lemma Forall_allowed_filter (s : pystr) :
  Forall (fun c => allowed c = true) s -> List.filter allowed s = s.
Proof.
  intros H. apply filter_allowed_id. induction H as [|c s Hc _ IH]; simpl; [done|].
  by rewrite Hc, IH.
Qed.

Lemma safe_name_Forall_allowed s : Forall (fun c => allowed c = true) (safe_name s).
Proof.
  assert (Forall (fun c => allowed c = true) (sanitized s)) as H.
  { unfold sanitized. pose proof (filter_allowed_Forall s) as H.
    destruct (List.filter allowed s); [|done]. by apply literal_allowed. }
  unfold safe_name. destruct (negb _); [|done].
  apply Forall_app. split; [done|]. by apply literal_allowed.
Qed.

(** The name an upload is staged under is made of allowed characters
    only, whatever the filename was: the generic name and the appended
    extension are themselves made of them. *)
Theorem staged_name_has_allowed_characters_only (filename : pystr) :
  Forall (fun c => isalnum c = true \/ c ∈ str "._- ") (safe_name filename).
Proof.
  eapply Forall_impl; [apply safe_name_Forall_allowed|].
  intros c. unfold allowed. rewrite orb_true_iff, bool_decide_eq_true. done.
Qed.

(** Sanitizing is idempotent: a staged name, taken as a filename again,
    passes the extension check and is staged under itself. *)
Theorem staged_name_is_a_fixed_point (filename : pystr) :
  has_pdf_extension (safe_name filename) = true /\
  sanitized (safe_name filename) = safe_name filename /\
  safe_name (safe_name filename) = safe_name filename.
Proof.
  assert (has_pdf_extension (safe_name filename) = true) as Hpdf
    by (rewrite has_pdf_extension_ci; apply safe_name_ci).
  assert (sanitized (safe_name filename) = safe_name filename) as Hs.
  { unfold sanitized.
    rewrite (Forall_allowed_filter _ (safe_name_Forall_allowed filename)).
    pose proof (safe_name_nonempty filename). by destruct (safe_name filename). }
  split; [done|]. split; [done|].
  unfold safe_name at 1. rewrite Hs. fold (has_pdf_extension (safe_name filename)).
  by rewrite Hpdf.
Qed.

(** *** The body as text *)












(** *** Two requests *)

Lemma new_dir_eq env :
  exists x, (forall env', gettempdir env' = gettempdir env ->
               new_dir env' = x ++ str "pageindex_" ++ mkdtemp_random env').
Proof.
  exists (if bool_decide (gettempdir env = []) || endswith (gettempdir env) [47]
          then gettempdir env else gettempdir env ++ [47]).
  intros env' E. unfold new_dir, os_path_join. rewrite E.
  change (startswith (str "pageindex_" ++ mkdtemp_random env') [47]) with false.
  destruct (_ || _); [done|]. by rewrite <- app_assoc.
Qed.

Lemma staged_path_eq env file :
  47 ∉ mkdtemp_random env ->
  staged_path env file =
    new_dir env ++ 47 :: safe_name (filename_or_unknown (filename file)).
Proof.
  intros Hr. destruct (new_dir_no_trailing_slash env Hr) as [Hne Hend].
  unfold staged_path.
  destruct (os_path_join_child (new_dir env)
              (safe_name (filename_or_unknown (filename file)))) as [->|[[H|H] _]].
  - apply safe_name_no_slash.
  - done.
  - done.
  - by rewrite H in Hend.
Qed.

Lemma first_separator (r1 r2 n1 n2 : pystr) :
  47 ∉ r1 -> 47 ∉ r2 -> r1 ++ 47 :: n1 = r2 ++ 47 :: n2 -> r1 = r2.
Proof.
  revert r2. induction r1 as [|c r1 IH]; intros [|c2 r2] H1 H2 E; simpl in E.
  - done.
  - injection E as <- _. destruct H2. apply list_elem_of_here.
  - injection E as -> _. destruct H1. apply list_elem_of_here.
  - injection E as -> E. f_equal. apply (IH r2); [| |done].
    + intros H. apply H1. by apply list_elem_of_further.
    + intros H. apply H2. by apply list_elem_of_further.
Qed.

(** Two requests whose directories got different random names stage
    their uploads apart, whatever the two filenames are (the same one,
    too): the directories differ, the staged paths differ, and neither
    staged file lies in the other request's directory. *)
Theorem staged_paths_do_not_collide env1 env2 file1 file2 :
  gettempdir env1 = gettempdir env2 ->
  47 ∉ mkdtemp_random env1 -> 47 ∉ mkdtemp_random env2 ->
  mkdtemp_random env1 <> mkdtemp_random env2 ->
  new_dir env1 <> new_dir env2 /\
  staged_path env1 file1 <> staged_path env2 file2 /\
  ~ is_under (new_dir env1) (staged_path env2 file2) /\
  ~ is_under (new_dir env2) (staged_path env1 file1).
Proof.
  intros Htmp H1 H2 Hne.
  destruct (new_dir_eq env1) as [x Hx].
  pose proof (Hx env1 eq_refl) as E1. pose proof (Hx env2 (eq_sym Htmp)) as E2.
  rewrite !staged_path_eq by done. unfold is_under. rewrite E1, E2.
  split; [|split; [|split]].
  - intros E. by do 2 apply app_inv_head in E.
  - rewrite <- !app_assoc. intros E. do 2 apply app_inv_head in E.
    by apply first_separator in E.
  - intros [k E]. rewrite <- !app_assoc in E. do 2 apply app_inv_head in E.
    cbn [app] in E. symmetry in E. by apply first_separator in E.
  - intros [k E]. rewrite <- !app_assoc in E. do 2 apply app_inv_head in E.
    cbn [app] in E. by apply first_separator in E.
Qed.

End Handler.

(** ** The claims at concrete requests *)

Lemma ascii_isalnum_ascii c : c < 128 -> ascii_isalnum c = ascii_isalnum c.
Proof. reflexivity. Qed.

Lemma ascii_lower_piece_ascii s i c :
  c < 128 -> ascii_lower_piece s i c = [ascii_lower c].
Proof. reflexivity. Qed.

Lemma ascii_lower_piece_high s i c :
  128 <= c ->
  ascii_lower_piece s i c <> [] /\
  Forall (fun x => 128 <= x \/ x = 105 \/ x = 107) (ascii_lower_piece s i c).
Proof.
  intros Hc. split; [done|]. apply Forall_singleton. left.
  unfold ascii_lower. destruct (N.leb_spec 65 c), (N.leb_spec c 90); simpl; lia.
Qed.

(** [report.pdf], engine and removals succeeding: the directory and the
    staged file are gone when [run] returns. *)
Lemma run_cleans_up_witness :
  (str "/tmp/pageindex_k3x9_q2a"
     ∉ dirs (fs (snd (run ascii_isalnum ascii_lower_piece
                        (example_env (Ok example_toc)) (upload "report.pdf")
                        example_state)))) /\
  files (fs (snd (run ascii_isalnum ascii_lower_piece
                    (example_env (Ok example_toc)) (upload "report.pdf")
                    example_state)))
    !! str "/tmp/pageindex_k3x9_q2a/report.pdf" = None.
Proof.
  destruct (proj2 (proj2 (run_cleans_up ascii_isalnum ascii_lower_piece
              (example_env (Ok example_toc)) (upload "report.pdf") example_state))
              eq_refl eq_refl (str "/tmp/pageindex_k3x9_q2a"))
    as [Hd Hp]; [vm_compute; reflexivity|].
  split; [exact Hd|]. apply Hp. vm_compute. reflexivity.
Defined.

(** [notes.txt] is answered with the 400 error; for [report.PDF] the
    handler goes on to read the upload. *)
Lemma pdf_extension_is_validated_witness :
  fst (run ascii_isalnum ascii_lower_piece (example_env (Ok example_toc))
         (upload "notes.txt") example_state) = Raise not_a_pdf /\
  exists evs,
    trace (snd (run ascii_isalnum ascii_lower_piece (example_env (Ok example_toc))
                  (upload "report.PDF") example_state)) =
    trace example_state ++ EvRead :: evs.
Proof.
  split.
  - exact (pdf_extension_is_validated ascii_isalnum ascii_lower_piece
             ascii_lower_piece_ascii ascii_lower_piece_high
             (example_env (Ok example_toc)) (upload "notes.txt") example_state
             (str "notes.txt") eq_refl).
  - exact (pdf_extension_is_validated ascii_isalnum ascii_lower_piece
             ascii_lower_piece_ascii ascii_lower_piece_high
             (example_env (Ok example_toc)) (upload "report.PDF") example_state
             (str "report.PDF") eq_refl).
Defined.

(** The generic name is not what a filename with a disallowed character
    is staged under: [a/b.pdf] becomes [ab.pdf], not [upload.pdf]. *)
Lemma disallowed_characters_are_dropped :
  forallb (allowed ascii_isalnum) (str "a/b.pdf") = false /\
  sanitized ascii_isalnum (str "a/b.pdf") = str "ab.pdf" /\
  sanitized ascii_isalnum (str "a/b.pdf") <> str "upload.pdf" /\
  EvOpen (str "/tmp/pageindex_k3x9_q2a/ab.pdf")
    ∈ trace (snd (run ascii_isalnum ascii_lower_piece
                    (example_env (Ok example_toc)) (upload "a/b.pdf")
                    example_state)).
Proof.
  split; [reflexivity|]. split; [reflexivity|]. split; [discriminate|].
  apply list_elem_of_In. vm_compute. tauto.
Qed.

(** [my report.pdf] is kept as it is; of [a/b.pdf] the allowed characters
    are kept; of [///] nothing is left and the generic name stands in. *)
Lemma sanitized_keeps_allowed_characters_witness :
  sanitized ascii_isalnum (str "my report.pdf") = str "my report.pdf" /\
  sanitized ascii_isalnum (str "a/b.pdf") = List.filter (allowed ascii_isalnum) (str "a/b.pdf") /\
  sanitized ascii_isalnum (str "///") = str "upload.pdf".
Proof.
  split; [|split].
  - apply (proj1 (sanitized_keeps_allowed_characters ascii_isalnum (str "my report.pdf")));
      [discriminate|reflexivity].
  - apply (proj1 (proj2 (sanitized_keeps_allowed_characters ascii_isalnum (str "a/b.pdf")))).
    discriminate.
  - apply (proj2 (proj2 (sanitized_keeps_allowed_characters ascii_isalnum (str "///")))).
    reflexivity.
Defined.



(** [notes.txt]: rejected with nothing done. *)
Lemma rejection_precedes_staging_witness :
  trace (snd (run ascii_isalnum ascii_lower_piece (example_env (Ok example_toc))
                (upload "notes.txt") example_state)) = trace example_state /\
  fs (snd (run ascii_isalnum ascii_lower_piece (example_env (Ok example_toc))
             (upload "notes.txt") example_state)) = fs example_state.
Proof.
  destruct (rejection_precedes_staging ascii_isalnum ascii_lower_piece
              ascii_lower_piece_ascii ascii_lower_piece_high
              (example_env (Ok example_toc)) (upload "notes.txt") example_state
              eq_refl) as (_ & Htrace & Hfs & _).
  split; [exact Htrace|exact Hfs].
Defined.

(** [///] has no allowed character: it is staged as [upload.pdf]. *)
Lemma staged_name_ends_in_pdf_witness :
  ends_with_pdf_ci (safe_name ascii_isalnum ascii_lower_piece (str "///")) = true.
Proof.
  exact (proj1 (proj2 (staged_name_ends_in_pdf ascii_isalnum ascii_lower_piece
                         ascii_lower_piece_ascii ascii_lower_piece_high (str "///")))).
Defined.

(** [../../etc/passwd.pdf] is staged as [....etcpasswd.pdf], in the new
    directory. *)
Lemma staged_file_stays_in_temp_dir_witness :
  (47 ∉ safe_name ascii_isalnum ascii_lower_piece (str "../../etc/passwd.pdf")) /\
  is_direct_child (str "/tmp/pageindex_k3x9_q2a")
    (str "/tmp/pageindex_k3x9_q2a/....etcpasswd.pdf").
Proof.
  destruct (staged_file_stays_in_temp_dir ascii_isalnum ascii_lower_piece
              ascii_isalnum_ascii ascii_lower_piece_ascii ascii_lower_piece_high
              (example_env (Ok example_toc)) (upload "../../etc/passwd.pdf")
              example_state) as (Hslash & _ & _ & _ & Hopen & _).
  split; [exact Hslash|].
  eapply (Hopen _ (str "/tmp/pageindex_k3x9_q2a/....etcpasswd.pdf")).
  - vm_compute. reflexivity.
  - left. apply list_elem_of_In. vm_compute. tauto.
Defined.

(** No filename at all: the 400 error, under the name [unknown]. *)
Lemma missing_filename_is_rejected_witness :
  fst (run ascii_isalnum ascii_lower_piece (example_env (Ok example_toc))
         nameless_upload example_state) = Raise not_a_pdf.
Proof.
  destruct (missing_filename_is_rejected ascii_isalnum ascii_lower_piece
              ascii_lower_piece_ascii (example_env (Ok example_toc))
              nameless_upload example_state (or_introl eq_refl)) as [_ H].
  rewrite H. reflexivity.
Defined.

(** The scenario of the specification: [report.pdf], the engine answering
    with two entries. *)
Lemma success_is_indented_json_witness :
  exists resp,
    fst (run ascii_isalnum ascii_lower_piece (example_env (Ok example_toc))
           (upload "report.pdf") example_state) = Ok resp /\
    content resp = unlines (indented_lines 0 example_toc) /\
    json_loads (content resp) = Some example_toc /\
    status_code resp = 200%Z.
Proof.
  assert (fst (run ascii_isalnum ascii_lower_piece (example_env (Ok example_toc))
                 (upload "report.pdf") example_state) =
          Ok (mkResponse (json_dumps example_toc) (str "application/json"))) as Hrun
    by (vm_compute; reflexivity).
  destruct (success_is_indented_json ascii_isalnum ascii_lower_piece
              (example_env (Ok example_toc)) (upload "report.pdf") example_state
              _ Hrun) as (v & Hv & Hc & Hloads & _ & Hs).
  assert (Ok example_toc = Ok v) as [= <-] by (rewrite <- Hv; vm_compute; reflexivity).
  eexists. split; [exact Hrun|]. split; [exact Hc|]. split; [|exact Hs].
  apply Hloads. reflexivity.
Defined.

(** The same scenario: the body parses back to the two entries. *)
Lemma response_body_round_trips_witness :
  json_loads (content (mkResponse (json_dumps example_toc) (str "application/json")))
    = Some example_toc.
Proof.
  destruct (response_body_round_trips ascii_isalnum ascii_lower_piece
              (example_env (Ok example_toc)) (upload "report.pdf") example_state
              (mkResponse (json_dumps example_toc) (str "application/json"))
              ltac:(vm_compute; reflexivity))
    as (v & Hv & Hloads).
  assert (Ok example_toc = Ok v) as [= <-] by (rewrite <- Hv; vm_compute; reflexivity).
  apply Hloads. reflexivity.
Defined.

(** The layout and the encoder, on a value without strings. *)
Example indented_lines_text :
  unlines (indented_lines 0 (PyList [PyInt 1; PyList [PyInt (-5); PyNone]; PyBool true])) =
  str "[
  1,
  [
    -5,
    null
  ],
  true
]".
Proof. reflexivity. Qed.

(** A result with a lone surrogate in it: the body cannot be encoded, and
    the request that had logged its end is answered with a 500. *)
Example lone_surrogate_is_a_500 :
  let ran := run ascii_isalnum ascii_lower_piece
               (example_env (Ok (PyList [PyStr [55357]]))) (upload "report.pdf")
               example_state in
  fst ran = Raise (HTTPException 500 (str "surrogates not allowed")) /\
  map msg (log (snd ran)) =
    ["Request received: filename=%s, size_bytes=%s"; "Processing started: %s";
     "PageIndex finished: elapsed_seconds=%.2f"; "Request finished: %s";
     "Request failed: %s"]%string.
Proof. split; vm_compute; reflexivity. Qed.

(** The indentation, on a value without strings. *)
Example json_dumps_indents :
  json_dumps (PyList [PyInt 1; PyList [PyInt (-5); PyNone]; PyBool true]) =
  str "[
  1,
  [
    -5,
    null
  ],
  true
]".
Proof. reflexivity. Qed.

(** ** The further properties at concrete requests *)

(** An engine that fails with an [OSError]: what leaves [run] is the 500. *)
Lemma run_raises_http_or_base_witness :
  is_HTTPException (HTTPException 500 (str "Input/output error")) = true \/
  is_Exception (HTTPException 500 (str "Input/output error")) = false.
Proof.
  apply (run_raises_http_or_base ascii_isalnum ascii_lower_piece
           (example_env (Raise (OSError (str "Input/output error"))))
           (upload "report.pdf") example_state).
  vm_compute. reflexivity.
Defined.

(** An engine that raises [ValueError("bad xref")] on [report.pdf]: the
    status is 500, for a filename that passes the check. *)
Lemma error_status_is_400_or_500_witness :
  (500 = 400 /\ str "bad xref" = str "File must have a .pdf extension" /\
   has_pdf_extension ascii_lower_piece
     (filename_or_unknown (filename (upload "report.pdf"))) = false)%Z \/
  (500 = 500 /\
   has_pdf_extension ascii_lower_piece
     (filename_or_unknown (filename (upload "report.pdf"))) = true)%Z.
Proof.
  apply (error_status_is_400_or_500 ascii_isalnum ascii_lower_piece
           (example_env (Raise (Exception (str "bad xref"))))
           (upload "report.pdf") example_state 500%Z (str "bad xref")).
  - intros e H. discriminate H.
  - intros e H. discriminate H.
  - intros e H. discriminate H.
  - intros e H. discriminate H.
  - intros p f e H. cbn [page_index_main example_env] in H.
    unfold example_engine in H. destruct (files f !! p); by injection H as <-.
  - vm_compute. reflexivity.
Defined.

(** [report.pdf], the engine answering: the four records of a request
    that succeeds. *)
Lemma elapsed_time_is_logged_witness :
  exists tail,
    log (snd (run ascii_isalnum ascii_lower_piece (example_env (Ok example_toc))
                (upload "report.pdf") example_state)) =
      log example_state ++
      [received_info (upload "report.pdf"); started_info (upload "report.pdf");
       elapsed_info (example_env (Ok example_toc))] ++
      [finished_info (upload "report.pdf")] ++ tail /\
    (tail = [] \/ exists m, tail = [cleanup_warning m]).
Proof.
  apply (elapsed_time_is_logged ascii_isalnum ascii_lower_piece
           (example_env (Ok example_toc)) (upload "report.pdf") example_state
           (trace (snd (run ascii_isalnum ascii_lower_piece
                          (example_env (Ok example_toc)) (upload "report.pdf")
                          example_state)))
           (str "/tmp/pageindex_k3x9_q2a/report.pdf") (Ok example_toc)).
  - reflexivity.
  - apply list_elem_of_In. vm_compute. tauto.
Defined.

(** The engine finds the bytes of the upload at the staged path. *)
Lemma engine_runs_on_staged_upload_witness :
  files (staged_fs ascii_isalnum ascii_lower_piece (example_env (Ok example_toc))
           (upload "report.pdf") (fs example_state))
    !! str "/tmp/pageindex_k3x9_q2a/report.pdf" = Some (body (upload "report.pdf")).
Proof.
  destruct (engine_runs_on_staged_upload ascii_isalnum ascii_lower_piece
              (example_env (Ok example_toc)) (upload "report.pdf") example_state
              (trace (snd (run ascii_isalnum ascii_lower_piece
                             (example_env (Ok example_toc)) (upload "report.pdf")
                             example_state)))
              (str "/tmp/pageindex_k3x9_q2a/report.pdf") (Ok example_toc))
    as (_ & _ & H & _).
  - reflexivity.
  - apply list_elem_of_In. vm_compute. tauto.
  - exact H.
Defined.

(** [os.unlink] refused: the directory and the staged file are still
    there when [run] returns. *)
Lemma failed_unlink_skips_rmdir_witness :
  let env := example_env_with "k3x9_q2a" None None None None
               (Some (str "Permission denied")) None (Ok example_toc) in
  let st' := snd (run ascii_isalnum ascii_lower_piece env (upload "report.pdf")
                    example_state) in
  new_dir env ∈ dirs (fs st') /\
  is_Some (files (fs st') !! str "/tmp/pageindex_k3x9_q2a/report.pdf").
Proof.
  intros env st'.
  destruct (failed_unlink_skips_rmdir ascii_isalnum ascii_lower_piece env
              (upload "report.pdf") example_state (str "Permission denied")
              (trace st') (str "/tmp/pageindex_k3x9_q2a/report.pdf"))
    as (_ & _ & Hd & Hf & _).
  - reflexivity.
  - reflexivity.
  - apply list_elem_of_In. vm_compute. tauto.
  - split; [exact Hd|exact Hf].
Defined.

(** The record of the failed request and the 500 carry one message. *)
Lemma error_record_matches_500_witness :
  exists e,
    failed_error (Exception (str "bad xref")) = failed_error e /\
    fst (run ascii_isalnum ascii_lower_piece
           (example_env (Raise (Exception (str "bad xref")))) (upload "report.pdf")
           example_state) = Raise (HTTPException 500 (exn_str e)).
Proof.
  apply (error_record_matches_500 ascii_isalnum ascii_lower_piece
           (example_env (Raise (Exception (str "bad xref")))) (upload "report.pdf")
           example_state
           (log (snd (run ascii_isalnum ascii_lower_piece
                        (example_env (Raise (Exception (str "bad xref"))))
                        (upload "report.pdf") example_state)))).
  - reflexivity.
  - apply list_elem_of_In. vm_compute. tauto.
  - reflexivity.
Defined.

(** [report.pdf], everything succeeding: the file system is as before. *)
Lemma file_system_is_restored_witness :
  fs (snd (run ascii_isalnum ascii_lower_piece (example_env (Ok example_toc))
             (upload "report.pdf") example_state)) = fs example_state.
Proof.
  apply (file_system_is_restored ascii_isalnum ascii_lower_piece ascii_isalnum_ascii
           (example_env (Ok example_toc)) (upload "report.pdf") example_state
           eq_refl eq_refl).
  intros H%list_elem_of_In. vm_compute in H. intuition discriminate.
Defined.

(** The upload cannot be read: a 500, and nothing staged. *)
Lemma read_failure_stops_before_staging_witness :
  trace (snd (run ascii_isalnum ascii_lower_piece
                (example_env_with "k3x9_q2a" (Some (Exception (str "client disconnected")))
                   None None None None None (Ok example_toc))
                (upload "report.pdf") example_state)) = [EvRead].
Proof.
  rewrite (read_failure_stops_before_staging ascii_isalnum ascii_lower_piece
             (example_env_with "k3x9_q2a" (Some (Exception (str "client disconnected")))
                None None None None None (Ok example_toc))
             (upload "report.pdf") example_state
             (Exception (str "client disconnected"))
             ltac:(vm_compute; reflexivity) eq_refl eq_refl eq_refl).
  reflexivity.
Defined.

(** No directory can be made: a 500, and the file system as it was. *)
Lemma mkdtemp_failure_leaves_nothing_witness :
  fs (snd (run ascii_isalnum ascii_lower_piece
             (example_env_with "k3x9_q2a" None
                (Some (OSError (str "No space left on device")))
                None None None None (Ok example_toc))
             (upload "report.pdf") example_state)) = fs example_state.
Proof.
  rewrite (mkdtemp_failure_leaves_nothing ascii_isalnum ascii_lower_piece
             (example_env_with "k3x9_q2a" None
                (Some (OSError (str "No space left on device")))
                None None None None (Ok example_toc))
             (upload "report.pdf") example_state
             (OSError (str "No space left on device"))
             ltac:(vm_compute; reflexivity) eq_refl eq_refl eq_refl eq_refl).
  reflexivity.
Defined.

(** The staged file cannot be opened: no unlink, the rmdir alone. *)
Lemma open_failure_removes_directory_witness :
  trace (snd (run ascii_isalnum ascii_lower_piece
                (example_env_with "k3x9_q2a" None None
                   (Some (OSError (str "Permission denied"))) None None None
                   (Ok example_toc))
                (upload "report.pdf") example_state)) =
  [EvRead; EvMkdtemp; EvOpen (str "/tmp/pageindex_k3x9_q2a/report.pdf");
   EvRmdir (str "/tmp/pageindex_k3x9_q2a")].
Proof.
  assert (47 ∉ str "k3x9_q2a") as Hrnd
    by (intros H%list_elem_of_In; vm_compute in H; intuition discriminate).
  destruct (open_failure_removes_directory ascii_isalnum ascii_lower_piece
              ascii_isalnum_ascii
              (example_env_with "k3x9_q2a" None None
                 (Some (OSError (str "Permission denied"))) None None None
                 (Ok example_toc))
              (upload "report.pdf") example_state
              (OSError (str "Permission denied"))
              ltac:(vm_compute; reflexivity) eq_refl eq_refl
              ltac:(vm_compute; reflexivity) Hrnd eq_refl eq_refl eq_refl)
    as (_ & H & _).
  rewrite H. vm_compute. reflexivity.
Defined.

(** The write fails: the file that [open] made is unlinked again. *)
Lemma write_failure_removes_partial_file_witness :
  files (fs (snd (run ascii_isalnum ascii_lower_piece
                    (example_env_with "k3x9_q2a" None None None
                       (Some (OSError (str "No space left on device"))) None None
                       (Ok example_toc))
                    (upload "report.pdf") example_state)))
    !! staged_path ascii_isalnum ascii_lower_piece
         (example_env_with "k3x9_q2a" None None None
            (Some (OSError (str "No space left on device"))) None None
            (Ok example_toc))
         (upload "report.pdf") = None.
Proof.
  exact (proj2 (proj2
    (write_failure_removes_partial_file ascii_isalnum ascii_lower_piece
       (example_env_with "k3x9_q2a" None None None
          (Some (OSError (str "No space left on device"))) None None
          (Ok example_toc))
       (upload "report.pdf") example_state
       (OSError (str "No space left on device"))
       ltac:(vm_compute; reflexivity) eq_refl eq_refl
       ltac:(vm_compute; reflexivity) eq_refl eq_refl eq_refl eq_refl eq_refl))).
Defined.

(** [a/b] is staged as [ab.pdf], all of it allowed. *)
Lemma staged_name_has_allowed_characters_only_witness :
  Forall (fun c => ascii_isalnum c = true \/ c ∈ str "._- ")
    (safe_name ascii_isalnum ascii_lower_piece (str "a/b")).
Proof.
  exact (staged_name_has_allowed_characters_only ascii_isalnum ascii_lower_piece
           ascii_isalnum_ascii (str "a/b")).
Defined.

(** [ab.pdf] is staged as [ab.pdf]. *)
Lemma staged_name_is_a_fixed_point_witness :
  safe_name ascii_isalnum ascii_lower_piece
    (safe_name ascii_isalnum ascii_lower_piece (str "a/b")) =
  safe_name ascii_isalnum ascii_lower_piece (str "a/b").
Proof.
  exact (proj2 (proj2 (staged_name_is_a_fixed_point ascii_isalnum ascii_lower_piece
                         ascii_isalnum_ascii ascii_lower_piece_ascii
                         ascii_lower_piece_high (str "a/b")))).
Defined.


(** Two uploads of [report.pdf] with different random names. *)
Lemma staged_paths_do_not_collide_witness :
  staged_path ascii_isalnum ascii_lower_piece (example_env (Ok example_toc))
    (upload "report.pdf") <>
  staged_path ascii_isalnum ascii_lower_piece
    (example_env_with "w7p0m_1c" None None None None None None (Ok example_toc))
    (upload "report.pdf").
Proof.
  destruct (staged_paths_do_not_collide ascii_isalnum ascii_lower_piece
              ascii_isalnum_ascii (example_env (Ok example_toc))
              (example_env_with "w7p0m_1c" None None None None None None
                 (Ok example_toc))
              (upload "report.pdf") (upload "report.pdf")) as (_ & H & _).
  - reflexivity.
  - intros H%list_elem_of_In. vm_compute in H. intuition discriminate.
  - intros H%list_elem_of_In. vm_compute in H. intuition discriminate.
  - intros H. vm_compute in H. discriminate H.
  - exact H.
Defined.
